(** * Share panel of the Telar story framework: model and verified properties

    Source: [assets/js/share-panel.js] (v0.5.0-beta).

    The script is an immediately-invoked function closing over two mutable
    variables ([currentStoryUrl], [availableStories]) and eleven element
    handles.  It is embedded below as state-passing functions over a record
    holding those variables and the mutable part of the handles, in an
    exception monad (a [null] handle dereferenced in the source raises
    [TypeError]).  Browser facilities the script calls but does not define
    ([URL], [JSON.parse], the clipboard) are the fields of a [Platform]
    record.

    JavaScript strings are represented by [string], read as the UTF-8 encoding
    of the text: the characters the script inspects (decimal digits, [?], [#],
    [/], white space) keep their meaning byte-wise under that encoding. *)

From Stdlib Require Import String Ascii List Bool Arith Lia.
Import ListNotations.
Open Scope string_scope.
Open Scope bool_scope.

(* ===================================================================== *)
(** ** JavaScript string primitives *)
(* ===================================================================== *)

Module Js.

Definition code (c : ascii) : nat := nat_of_ascii c.

Definition between (lo hi : nat) (c : ascii) : bool :=
  Nat.leb lo (code c) && Nat.leb (code c) hi.

Definition is_code (n : nat) (c : ascii) : bool := Nat.eqb (code c) n.

(** [\d] of a JavaScript regular expression: the ten ASCII digits. *)
Definition is_digit (c : ascii) : bool := between 48 57 c.

(** The class [[?#]]. *)
Definition is_query_or_hash (c : ascii) : bool :=
  Ascii.eqb c "?" || Ascii.eqb c "#".

Definition is_slash (c : ascii) : bool := Ascii.eqb c "/".

(** *** Regular expressions

    A matcher by derivatives for the fragment of the regular-expression
    language the script uses.  [matches r s] decides whether the whole of [s]
    is in the language of [r], which is what [/^r$/.test(s)] computes (no
    [m] flag: [^] and [$] are the two ends of the input). *)

Inductive regex : Type :=
| Never
| Empty
| Class (p : ascii -> bool)
| Cat (r1 r2 : regex)
| Alt (r1 r2 : regex)
| Star (r : regex).

Fixpoint nullable (r : regex) : bool :=
  match r with
  | Never => false
  | Empty => true
  | Class _ => false
  | Cat r1 r2 => nullable r1 && nullable r2
  | Alt r1 r2 => nullable r1 || nullable r2
  | Star _ => true
  end.

Fixpoint deriv (c : ascii) (r : regex) : regex :=
  match r with
  | Never => Never
  | Empty => Never
  | Class p => if p c then Empty else Never
  | Cat r1 r2 =>
      if nullable r1
      then Alt (Cat (deriv c r1) r2) (deriv c r2)
      else Cat (deriv c r1) r2
  | Alt r1 r2 => Alt (deriv c r1) (deriv c r2)
  | Star r1 => Cat (deriv c r1) (Star r1)
  end.

Fixpoint matches (r : regex) (s : string) : bool :=
  match s with
  | EmptyString => nullable r
  | String c s' => matches (deriv c r) s'
  end.

(** [r+] *)
Definition Plus (r : regex) : regex := Cat r (Star r).

(** *** [String.prototype.split] with a one-character separator

    Both uses in the script split at single characters: [split('/')] and
    [split(/[?#]/)].  The result always has at least one piece. *)

Fixpoint split (sep : ascii -> bool) (s : string) : list string :=
  match s with
  | EmptyString => [EmptyString]
  | String c s' =>
      if sep c then EmptyString :: split sep s'
      else match split sep s' with
           | piece :: rest => String c piece :: rest
           | [] => [String c EmptyString]
           end
  end.

(** [a[0]] for an array of strings known to be non-empty. *)
Definition first (a : list string) : string := hd EmptyString a.

(** Truthiness of a string: [if (s)]. *)
Definition truthy (s : string) : bool := negb (s =? "").

(** [a || b] on strings. *)
Definition or_else (a b : string) : string := if truthy a then a else b.

(** *** [String.prototype.trim]

    White space and line terminators of ECMAScript, in UTF-8:
    U+0009..U+000D and U+0020 are one byte; U+00A0 is [C2 A0]; U+1680 is
    [E1 9A 80]; U+2000..U+200A, U+2028, U+2029, U+202F are [E2 80 xx];
    U+205F is [E2 81 9F]; U+3000 is [E3 80 80]; U+FEFF is [EF BB BF]. *)

Definition ws1 (a : ascii) : bool :=
  between 9 13 a || is_code 32 a.

Definition ws2 (a b : ascii) : bool :=
  is_code 194 a && is_code 160 b.

Definition ws3 (a b c : ascii) : bool :=
  (is_code 225 a && is_code 154 b && is_code 128 c)
  || (is_code 226 a && is_code 128 b
      && (between 128 138 c || between 168 169 c || is_code 175 c))
  || (is_code 226 a && is_code 129 b && is_code 159 c)
  || (is_code 227 a && is_code 128 b && is_code 128 c)
  || (is_code 239 a && is_code 187 b && is_code 191 c).

Fixpoint trimStart (s : string) : string :=
  match s with
  | EmptyString => s
  | String a r =>
      if ws1 a then trimStart r
      else match r with
           | EmptyString => s
           | String b r2 =>
               if ws2 a b then trimStart r2
               else match r2 with
                    | EmptyString => s
                    | String c r3 => if ws3 a b c then trimStart r3 else s
                    end
           end
  end.

(** The same scan over the reversed byte sequence. *)
Fixpoint trimStart_rev (l : list ascii) : list ascii :=
  match l with
  | [] => l
  | a :: r =>
      if ws1 a then trimStart_rev r
      else match r with
           | [] => l
           | b :: r2 =>
               if ws2 b a then trimStart_rev r2
               else match r2 with
                    | [] => l
                    | c :: r3 => if ws3 c b a then trimStart_rev r3 else l
                    end
           end
  end.

Definition trimEnd (s : string) : string :=
  string_of_list_ascii (rev (trimStart_rev (rev (list_ascii_of_string s)))).

Definition trim (s : string) : string := trimEnd (trimStart s).

End Js.

(* ===================================================================== *)
(** ** The browser's [URL] objects *)
(* ===================================================================== *)

(** A [URL] object after construction.  [url_base] is the serialization of
    everything in front of the query: scheme, credentials, host, port and
    path.  [url_query] and [url_fragment] are [None] for a null component.
    [url_searchParams] is the list of its [URLSearchParams] object. *)
Record URL : Type := {
  url_origin : string;
  url_pathname : string;
  url_base : string;
  url_query : option string;
  url_fragment : option string;
  url_searchParams : list (string * string)
}.

Module UrlApi.

Definition hex_digit (n : nat) : ascii :=
  ascii_of_nat (if Nat.ltb n 10 then 48 + n else 55 + n).

(** [%XX] with upper-case hexadecimal digits. *)
Definition percent_byte (c : ascii) : string :=
  String "%" (String (hex_digit (Js.code c / 16))
             (String (hex_digit (Js.code c mod 16)) EmptyString)).

Definition is_alnum (c : ascii) : bool :=
  Js.between 48 57 c || Js.between 65 90 c || Js.between 97 122 c.

(** Bytes the application/x-www-form-urlencoded serializer leaves alone:
    ASCII alphanumerics and [*] [-] [.] [_]. *)
Definition urlencoded_safe (c : ascii) : bool :=
  is_alnum c || Js.is_code 42 c || Js.is_code 45 c || Js.is_code 46 c
  || Js.is_code 95 c.

Fixpoint urlencoded_bytes (s : string) : string :=
  match s with
  | EmptyString => EmptyString
  | String c r =>
      (if Js.is_code 32 c then "+"
       else if urlencoded_safe c then String c EmptyString
       else percent_byte c) ++ urlencoded_bytes r
  end.

(** The application/x-www-form-urlencoded serializer. *)
Fixpoint urlencoded_serialize (l : list (string * string)) : string :=
  match l with
  | [] => EmptyString
  | [(n, v)] => urlencoded_bytes n ++ "=" ++ urlencoded_bytes v
  | (n, v) :: rest =>
      urlencoded_bytes n ++ "=" ++ urlencoded_bytes v ++ "&"
      ++ urlencoded_serialize rest
  end.

(** [url.search = ''] : the query becomes null and the list of the query
    object is emptied. *)
Definition set_search_empty (u : URL) : URL :=
  {| url_origin := url_origin u; url_pathname := url_pathname u;
     url_base := url_base u; url_query := None;
     url_fragment := url_fragment u; url_searchParams := [] |}.

(** [url.hash = ''] : the fragment becomes null. *)
Definition set_hash_empty (u : URL) : URL :=
  {| url_origin := url_origin u; url_pathname := url_pathname u;
     url_base := url_base u; url_query := url_query u;
     url_fragment := None; url_searchParams := url_searchParams u |}.

(** [URLSearchParams.prototype.set] on the list: the first pair named
    [name] takes the value, later pairs of that name are removed; without
    such a pair one is appended. *)
Fixpoint list_set (name value : string) (l : list (string * string))
  : list (string * string) :=
  match l with
  | [] => [(name, value)]
  | (n, v) :: rest =>
      if n =? name
      then (n, value) :: filter (fun p => negb (fst p =? name)) rest
      else (n, v) :: list_set name value rest
  end.

(** [url.searchParams.set(name, value)], followed by the update steps of
    the query object: the query becomes the serialization of the list, or
    null when that is empty. *)
Definition searchParams_set (name value : string) (u : URL) : URL :=
  let l := list_set name value (url_searchParams u) in
  let q := urlencoded_serialize l in
  {| url_origin := url_origin u; url_pathname := url_pathname u;
     url_base := url_base u;
     url_query := if q =? "" then None else Some q;
     url_fragment := url_fragment u; url_searchParams := l |}.

(** [url.toString()] : the URL serializer. *)
Definition toString (u : URL) : string :=
  url_base u
  ++ match url_query u with Some q => "?" ++ q | None => "" end
  ++ match url_fragment u with Some f => "#" ++ f | None => "" end.

End UrlApi.

(* ===================================================================== *)
(** ** Page data and platform functions *)
(* ===================================================================== *)

(** An entry of the story catalog embedded in the page. *)
Record Story : Type := { story_url : string; story_title : string }.

(** The part of the language data the script reads:
    [lang.share.select_option].  [None] stands for a missing member. *)
Record ShareStrings : Type := { select_option : option string }.
Record Lang : Type := { lang_share : option ShareStrings }.

(** What the script calls and does not define.  [None] is a thrown
    exception.  The JSON payloads are typed by the interface of the page
    that embeds them: an array of [{url, title}] objects, and the language
    table.  A stories payload that parses to anything else ([null], an
    object, an array with an entry that is no such object) is outside this
    development: [Some l] reads as [JSON.parse] having returned the list
    of stories [l], and a statement about exceptions that depends on the
    catalog says so in its hypotheses. *)
Record Platform : Type := {
  new_URL : string -> option URL;
  JSON_parse_stories : string -> option (list Story);
  JSON_parse_lang : string -> option Lang
}.

(** What the script reads from the document and never writes. *)
Record Page : Type := {
  location_href : string;
  location_origin : string;
  location_pathname : string;
  document_title : string;
  (** [content] of [meta[property=og:title]], when the page has one *)
  og_title : option string;
  (** [document.documentElement.dataset.lang] *)
  dataset_lang : option string;
  (** [textContent] of the element [telar-stories-data] *)
  telar_stories_data : option string
}.

(* ===================================================================== *)
(** ** Elements *)
(* ===================================================================== *)

(** An [option] element: its value and its text. *)
Record OptionEl : Type := { opt_value : string; opt_text : string }.

(** A drop-down [select]: its options in tree order and the index of the
    selected one; [None] is [selectedIndex === -1]. *)
Record Select : Type := {
  options : list OptionEl;
  selectedIndex : option nat
}.

Module Dom.

(** [select.options[select.selectedIndex]] *)
Definition selected_option (s : Select) : option OptionEl :=
  match selectedIndex s with
  | Some i => nth_error (options s) i
  | None => None
  end.

(** [select.value] read: the value of the selected option, or the empty
    string when no option is selected. *)
Definition select_value (s : Select) : string :=
  match selected_option s with
  | Some o => opt_value o
  | None => ""
  end.

Fixpoint index_of (v : string) (l : list OptionEl) : option nat :=
  match l with
  | [] => None
  | o :: rest =>
      if opt_value o =? v then Some 0
      else option_map S (index_of v rest)
  end.

(** [select.value = v] : the first option whose value is [v] becomes the
    selected one; when there is none, no option is selected. *)
Definition select_set_value (v : string) (s : Select) : Select :=
  {| options := options s; selectedIndex := index_of v (options s) |}.

(** The user picks the option at index [i]. *)
Definition select_pick (i : nat) (s : Select) : Select :=
  {| options := options s; selectedIndex := Some i |}.

(** [select.innerHTML = ''] followed by [appendChild] of each of [l]: in a
    drop-down the first option inserted becomes the selected one. *)
Definition select_refill (l : list OptionEl) (s : Select) : Select :=
  {| options := l;
     selectedIndex := match l with [] => None | _ :: _ => Some 0 end |}.

End Dom.

(** A copy button: its [disabled] flag, the [.tab-pane] that contains it
    (for [closest]), and the text of its [.material-symbols-outlined]
    child, when it has one. *)
Record Button : Type := {
  btn_disabled : bool;
  btn_tab_pane : option nat;
  btn_icon : option string
}.

Inductive ButtonId : Type := ShareCopyLinkBtn | ShareCopySiteBtn | EmbedCopyCodeBtn.

Inductive TimerAction : Type :=
| HideSuccessMessage (pane : nat)
| RestoreIcon (b : ButtonId) (originalIcon : string).

(** What the script does to the world outside its own state, in order. *)
Inductive Effect : Type :=
| ConsoleLog (msg : string)
| ConsoleWarn (msg : string)
| ConsoleError (msg : string) (err : string)
| Alert (msg : string)
| ClipboardWriteText (text : string)
| SetTimeout (a : TimerAction) (ms : nat).

(* ===================================================================== *)
(** ** State *)
(* ===================================================================== *)

(** The two variables of the closure and the element handles, in the order
    of their declarations.  A handle is [None] when [getElementById]
    returned [null]; for an input or textarea the content is its [value].
    [successMessages] maps a tab pane to the [display] style of its first
    [.share-success-message]. *)
Record State : Type := {
  currentStoryUrl : string;
  availableStories : list Story;
  sharePanel : bool;
  shareUrlInput : option string;
  shareCopyLinkBtn : option Button;
  shareSiteUrlInput : option string;
  shareCopySiteBtn : option Button;
  shareStorySelect : option Select;
  embedPresetSelect : option Select;
  embedWidthInput : option string;
  embedHeightInput : option string;
  embedCodeTextarea : option string;
  embedCopyCodeBtn : option Button;
  embedStorySelect : option Select;
  successMessages : list (nat * string);
  effects : list Effect
}.

(** Assignments: [set_f v s] is [s] with field [f] replaced by [v]. *)

Definition set_currentStoryUrl (v : string) (s : State) : State :=
  {| currentStoryUrl := v; availableStories := availableStories s;
     sharePanel := sharePanel s; shareUrlInput := shareUrlInput s;
     shareCopyLinkBtn := shareCopyLinkBtn s;
     shareSiteUrlInput := shareSiteUrlInput s;
     shareCopySiteBtn := shareCopySiteBtn s;
     shareStorySelect := shareStorySelect s;
     embedPresetSelect := embedPresetSelect s;
     embedWidthInput := embedWidthInput s;
     embedHeightInput := embedHeightInput s;
     embedCodeTextarea := embedCodeTextarea s;
     embedCopyCodeBtn := embedCopyCodeBtn s;
     embedStorySelect := embedStorySelect s;
     successMessages := successMessages s; effects := effects s |}.

Definition set_availableStories (v : list Story) (s : State) : State :=
  {| currentStoryUrl := currentStoryUrl s; availableStories := v;
     sharePanel := sharePanel s; shareUrlInput := shareUrlInput s;
     shareCopyLinkBtn := shareCopyLinkBtn s;
     shareSiteUrlInput := shareSiteUrlInput s;
     shareCopySiteBtn := shareCopySiteBtn s;
     shareStorySelect := shareStorySelect s;
     embedPresetSelect := embedPresetSelect s;
     embedWidthInput := embedWidthInput s;
     embedHeightInput := embedHeightInput s;
     embedCodeTextarea := embedCodeTextarea s;
     embedCopyCodeBtn := embedCopyCodeBtn s;
     embedStorySelect := embedStorySelect s;
     successMessages := successMessages s; effects := effects s |}.

Definition set_shareUrlInput (v : option string) (s : State) : State :=
  {| currentStoryUrl := currentStoryUrl s;
     availableStories := availableStories s; sharePanel := sharePanel s;
     shareUrlInput := v; shareCopyLinkBtn := shareCopyLinkBtn s;
     shareSiteUrlInput := shareSiteUrlInput s;
     shareCopySiteBtn := shareCopySiteBtn s;
     shareStorySelect := shareStorySelect s;
     embedPresetSelect := embedPresetSelect s;
     embedWidthInput := embedWidthInput s;
     embedHeightInput := embedHeightInput s;
     embedCodeTextarea := embedCodeTextarea s;
     embedCopyCodeBtn := embedCopyCodeBtn s;
     embedStorySelect := embedStorySelect s;
     successMessages := successMessages s; effects := effects s |}.

Definition set_shareCopyLinkBtn (v : option Button) (s : State) : State :=
  {| currentStoryUrl := currentStoryUrl s;
     availableStories := availableStories s; sharePanel := sharePanel s;
     shareUrlInput := shareUrlInput s; shareCopyLinkBtn := v;
     shareSiteUrlInput := shareSiteUrlInput s;
     shareCopySiteBtn := shareCopySiteBtn s;
     shareStorySelect := shareStorySelect s;
     embedPresetSelect := embedPresetSelect s;
     embedWidthInput := embedWidthInput s;
     embedHeightInput := embedHeightInput s;
     embedCodeTextarea := embedCodeTextarea s;
     embedCopyCodeBtn := embedCopyCodeBtn s;
     embedStorySelect := embedStorySelect s;
     successMessages := successMessages s; effects := effects s |}.

Definition set_shareSiteUrlInput (v : option string) (s : State) : State :=
  {| currentStoryUrl := currentStoryUrl s;
     availableStories := availableStories s; sharePanel := sharePanel s;
     shareUrlInput := shareUrlInput s;
     shareCopyLinkBtn := shareCopyLinkBtn s; shareSiteUrlInput := v;
     shareCopySiteBtn := shareCopySiteBtn s;
     shareStorySelect := shareStorySelect s;
     embedPresetSelect := embedPresetSelect s;
     embedWidthInput := embedWidthInput s;
     embedHeightInput := embedHeightInput s;
     embedCodeTextarea := embedCodeTextarea s;
     embedCopyCodeBtn := embedCopyCodeBtn s;
     embedStorySelect := embedStorySelect s;
     successMessages := successMessages s; effects := effects s |}.

Definition set_shareCopySiteBtn (v : option Button) (s : State) : State :=
  {| currentStoryUrl := currentStoryUrl s;
     availableStories := availableStories s; sharePanel := sharePanel s;
     shareUrlInput := shareUrlInput s;
     shareCopyLinkBtn := shareCopyLinkBtn s;
     shareSiteUrlInput := shareSiteUrlInput s; shareCopySiteBtn := v;
     shareStorySelect := shareStorySelect s;
     embedPresetSelect := embedPresetSelect s;
     embedWidthInput := embedWidthInput s;
     embedHeightInput := embedHeightInput s;
     embedCodeTextarea := embedCodeTextarea s;
     embedCopyCodeBtn := embedCopyCodeBtn s;
     embedStorySelect := embedStorySelect s;
     successMessages := successMessages s; effects := effects s |}.

Definition set_shareStorySelect (v : option Select) (s : State) : State :=
  {| currentStoryUrl := currentStoryUrl s;
     availableStories := availableStories s; sharePanel := sharePanel s;
     shareUrlInput := shareUrlInput s;
     shareCopyLinkBtn := shareCopyLinkBtn s;
     shareSiteUrlInput := shareSiteUrlInput s;
     shareCopySiteBtn := shareCopySiteBtn s; shareStorySelect := v;
     embedPresetSelect := embedPresetSelect s;
     embedWidthInput := embedWidthInput s;
     embedHeightInput := embedHeightInput s;
     embedCodeTextarea := embedCodeTextarea s;
     embedCopyCodeBtn := embedCopyCodeBtn s;
     embedStorySelect := embedStorySelect s;
     successMessages := successMessages s; effects := effects s |}.

Definition set_embedPresetSelect (v : option Select) (s : State) : State :=
  {| currentStoryUrl := currentStoryUrl s;
     availableStories := availableStories s; sharePanel := sharePanel s;
     shareUrlInput := shareUrlInput s;
     shareCopyLinkBtn := shareCopyLinkBtn s;
     shareSiteUrlInput := shareSiteUrlInput s;
     shareCopySiteBtn := shareCopySiteBtn s;
     shareStorySelect := shareStorySelect s; embedPresetSelect := v;
     embedWidthInput := embedWidthInput s;
     embedHeightInput := embedHeightInput s;
     embedCodeTextarea := embedCodeTextarea s;
     embedCopyCodeBtn := embedCopyCodeBtn s;
     embedStorySelect := embedStorySelect s;
     successMessages := successMessages s; effects := effects s |}.

Definition set_embedWidthInput (v : option string) (s : State) : State :=
  {| currentStoryUrl := currentStoryUrl s;
     availableStories := availableStories s; sharePanel := sharePanel s;
     shareUrlInput := shareUrlInput s;
     shareCopyLinkBtn := shareCopyLinkBtn s;
     shareSiteUrlInput := shareSiteUrlInput s;
     shareCopySiteBtn := shareCopySiteBtn s;
     shareStorySelect := shareStorySelect s;
     embedPresetSelect := embedPresetSelect s; embedWidthInput := v;
     embedHeightInput := embedHeightInput s;
     embedCodeTextarea := embedCodeTextarea s;
     embedCopyCodeBtn := embedCopyCodeBtn s;
     embedStorySelect := embedStorySelect s;
     successMessages := successMessages s; effects := effects s |}.

Definition set_embedHeightInput (v : option string) (s : State) : State :=
  {| currentStoryUrl := currentStoryUrl s;
     availableStories := availableStories s; sharePanel := sharePanel s;
     shareUrlInput := shareUrlInput s;
     shareCopyLinkBtn := shareCopyLinkBtn s;
     shareSiteUrlInput := shareSiteUrlInput s;
     shareCopySiteBtn := shareCopySiteBtn s;
     shareStorySelect := shareStorySelect s;
     embedPresetSelect := embedPresetSelect s;
     embedWidthInput := embedWidthInput s; embedHeightInput := v;
     embedCodeTextarea := embedCodeTextarea s;
     embedCopyCodeBtn := embedCopyCodeBtn s;
     embedStorySelect := embedStorySelect s;
     successMessages := successMessages s; effects := effects s |}.

Definition set_embedCodeTextarea (v : option string) (s : State) : State :=
  {| currentStoryUrl := currentStoryUrl s;
     availableStories := availableStories s; sharePanel := sharePanel s;
     shareUrlInput := shareUrlInput s;
     shareCopyLinkBtn := shareCopyLinkBtn s;
     shareSiteUrlInput := shareSiteUrlInput s;
     shareCopySiteBtn := shareCopySiteBtn s;
     shareStorySelect := shareStorySelect s;
     embedPresetSelect := embedPresetSelect s;
     embedWidthInput := embedWidthInput s;
     embedHeightInput := embedHeightInput s; embedCodeTextarea := v;
     embedCopyCodeBtn := embedCopyCodeBtn s;
     embedStorySelect := embedStorySelect s;
     successMessages := successMessages s; effects := effects s |}.

Definition set_embedCopyCodeBtn (v : option Button) (s : State) : State :=
  {| currentStoryUrl := currentStoryUrl s;
     availableStories := availableStories s; sharePanel := sharePanel s;
     shareUrlInput := shareUrlInput s;
     shareCopyLinkBtn := shareCopyLinkBtn s;
     shareSiteUrlInput := shareSiteUrlInput s;
     shareCopySiteBtn := shareCopySiteBtn s;
     shareStorySelect := shareStorySelect s;
     embedPresetSelect := embedPresetSelect s;
     embedWidthInput := embedWidthInput s;
     embedHeightInput := embedHeightInput s;
     embedCodeTextarea := embedCodeTextarea s; embedCopyCodeBtn := v;
     embedStorySelect := embedStorySelect s;
     successMessages := successMessages s; effects := effects s |}.

Definition set_embedStorySelect (v : option Select) (s : State) : State :=
  {| currentStoryUrl := currentStoryUrl s;
     availableStories := availableStories s; sharePanel := sharePanel s;
     shareUrlInput := shareUrlInput s;
     shareCopyLinkBtn := shareCopyLinkBtn s;
     shareSiteUrlInput := shareSiteUrlInput s;
     shareCopySiteBtn := shareCopySiteBtn s;
     shareStorySelect := shareStorySelect s;
     embedPresetSelect := embedPresetSelect s;
     embedWidthInput := embedWidthInput s;
     embedHeightInput := embedHeightInput s;
     embedCodeTextarea := embedCodeTextarea s;
     embedCopyCodeBtn := embedCopyCodeBtn s; embedStorySelect := v;
     successMessages := successMessages s; effects := effects s |}.

Definition set_successMessages (v : list (nat * string)) (s : State) : State :=
  {| currentStoryUrl := currentStoryUrl s;
     availableStories := availableStories s; sharePanel := sharePanel s;
     shareUrlInput := shareUrlInput s;
     shareCopyLinkBtn := shareCopyLinkBtn s;
     shareSiteUrlInput := shareSiteUrlInput s;
     shareCopySiteBtn := shareCopySiteBtn s;
     shareStorySelect := shareStorySelect s;
     embedPresetSelect := embedPresetSelect s;
     embedWidthInput := embedWidthInput s;
     embedHeightInput := embedHeightInput s;
     embedCodeTextarea := embedCodeTextarea s;
     embedCopyCodeBtn := embedCopyCodeBtn s;
     embedStorySelect := embedStorySelect s; successMessages := v;
     effects := effects s |}.

Definition set_effects (v : list Effect) (s : State) : State :=
  {| currentStoryUrl := currentStoryUrl s;
     availableStories := availableStories s; sharePanel := sharePanel s;
     shareUrlInput := shareUrlInput s;
     shareCopyLinkBtn := shareCopyLinkBtn s;
     shareSiteUrlInput := shareSiteUrlInput s;
     shareCopySiteBtn := shareCopySiteBtn s;
     shareStorySelect := shareStorySelect s;
     embedPresetSelect := embedPresetSelect s;
     embedWidthInput := embedWidthInput s;
     embedHeightInput := embedHeightInput s;
     embedCodeTextarea := embedCodeTextarea s;
     embedCopyCodeBtn := embedCopyCodeBtn s;
     embedStorySelect := embedStorySelect s;
     successMessages := successMessages s; effects := v |}.

Definition set_disabled (d : bool) (b : Button) : Button :=
  {| btn_disabled := d; btn_tab_pane := btn_tab_pane b;
     btn_icon := btn_icon b |}.

Definition set_icon (t : string) (b : Button) : Button :=
  {| btn_disabled := btn_disabled b; btn_tab_pane := btn_tab_pane b;
     btn_icon := Some t |}.

(** The two story selectors, by the [id] of the element. *)
Inductive Widget : Type := ShareStorySelect | EmbedStorySelect.

Definition get_select (w : Widget) (s : State) : option Select :=
  match w with
  | ShareStorySelect => shareStorySelect s
  | EmbedStorySelect => embedStorySelect s
  end.

Definition set_select (w : Widget) (v : option Select) (s : State) : State :=
  match w with
  | ShareStorySelect => set_shareStorySelect v s
  | EmbedStorySelect => set_embedStorySelect v s
  end.

Definition get_button (b : ButtonId) (s : State) : option Button :=
  match b with
  | ShareCopyLinkBtn => shareCopyLinkBtn s
  | ShareCopySiteBtn => shareCopySiteBtn s
  | EmbedCopyCodeBtn => embedCopyCodeBtn s
  end.

Definition set_button (b : ButtonId) (v : option Button) (s : State) : State :=
  match b with
  | ShareCopyLinkBtn => set_shareCopyLinkBtn v s
  | ShareCopySiteBtn => set_shareCopySiteBtn v s
  | EmbedCopyCodeBtn => set_embedCopyCodeBtn v s
  end.

(* ===================================================================== *)
(** ** Statements: state and exceptions *)
(* ===================================================================== *)

Inductive exn : Type :=
| TypeError (what : string)
| SyntaxError.

Inductive result (A : Type) : Type :=
| Ok (a : A)
| Throw (e : exn).

Arguments Ok {A} a.
Arguments Throw {A} e.

(** A statement: from a state to a result and the state it leaves.  The
    state left by [Throw] holds the assignments made before the throw. *)
Definition M (A : Type) : Type := State -> result A * State.

Definition ret {A : Type} (a : A) : M A := fun s => (Ok a, s).

Definition bind {A B : Type} (m : M A) (k : A -> M B) : M B :=
  fun s =>
    match m s with
    | (Ok a, s') => k a s'
    | (Throw e, s') => (Throw e, s')
    end.

Definition throw {A : Type} (e : exn) : M A := fun s => (Throw e, s).

Definition gets {A : Type} (f : State -> A) : M A := fun s => (Ok (f s), s).

Definition modify (f : State -> State) : M unit := fun s => (Ok tt, f s).

(** [try { m } catch (e) { h e }] *)
Definition try_catch {A : Type} (m : M A) (h : exn -> M A) : M A :=
  fun s =>
    match m s with
    | (Ok a, s') => (Ok a, s')
    | (Throw e, s') => h e s'
    end.

(** [if (handle) { k handle }] *)
Definition when_present {A : Type} (handle : State -> option A)
    (k : A -> M unit) : M unit :=
  fun s =>
    match handle s with
    | Some a => k a s
    | None => (Ok tt, s)
    end.

(** [handle.member] with no guard: a [TypeError] when the handle is null. *)
Definition deref {A : Type} (name : string) (handle : State -> option A)
  : M A :=
  fun s =>
    match handle s with
    | Some a => (Ok a, s)
    | None => (Throw (TypeError name), s)
    end.

Definition emit (e : Effect) : M unit :=
  modify (fun s => set_effects (effects s ++ [e]) s).

Notation "x <- m ;; k" := (bind m (fun x => k))
  (at level 61, m at next level, right associativity).
Notation "m ;; k" := (bind m (fun _ => k))
  (at level 61, right associativity).

(** [array.forEach(f)] *)
Fixpoint forEach {A : Type} (l : list A) (f : A -> M unit) : M unit :=
  match l with
  | [] => ret tt
  | a :: rest => f a ;; forEach rest f
  end.

Definition run {A : Type} (m : M A) (s : State) : State := snd (m s).
Definition outcome {A : Type} (m : M A) (s : State) : result A := fst (m s).

(* ===================================================================== *)
(** ** The preset table *)
(* ===================================================================== *)

Record Preset : Type := { width : string; height : string }.

(** The object literal [presets] of [handlePresetChange]. *)
Definition presets : list (string * Preset) :=
  [ ("canvas",      {| width := "100%"; height := "800" |});
    ("moodle",      {| width := "100%"; height := "700" |});
    ("wordpress",   {| width := "100%"; height := "600" |});
    ("squarespace", {| width := "100%"; height := "600" |});
    ("wix",         {| width := "100%"; height := "550" |});
    ("mobile",      {| width := "375";  height := "500" |});
    ("fixed",       {| width := "800";  height := "600" |}) ].

(** The members an object literal inherits from [Object.prototype]: its
    methods, [constructor], and the accessor [__proto__].  Each reads as a
    function or an object. *)
Definition Object_prototype_members : list string :=
  [ "constructor"; "hasOwnProperty"; "isPrototypeOf"; "propertyIsEnumerable";
    "toLocaleString"; "toString"; "valueOf"; "__proto__";
    "__defineGetter__"; "__defineSetter__"; "__lookupGetter__";
    "__lookupSetter__" ].

(** What [presets[key]] evaluates to. *)
Inductive Property : Type :=
| Own (p : Preset)
| Inherited
| Undefined.

Fixpoint own_property (key : string) (l : list (string * Preset))
  : option Preset :=
  match l with
  | [] => None
  | (k, p) :: rest => if k =? key then Some p else own_property key rest
  end.

(** [presets[key]] : an own property first, then the prototype chain. *)
Definition presets_get (key : string) : Property :=
  match own_property key presets with
  | Some p => Own p
  | None =>
      if existsb (String.eqb key) Object_prototype_members then Inherited
      else Undefined
  end.

(** [x.width] and [x.height] for the value [x] of [presets[key]], converted
    to the string an input's [value] takes: a function or [Object.prototype]
    has no such member, and [undefined] converts to ["undefined"]. *)
Definition member_as_value (f : Preset -> string) (x : Property) : string :=
  match x with
  | Own p => f p
  | Inherited => "undefined"
  | Undefined => "undefined"
  end.

(* ===================================================================== *)
(** ** The script *)
(* ===================================================================== *)

Definition dquote : string := String (ascii_of_nat 34) EmptyString.
Definition newline : string := String (ascii_of_nat 10) EmptyString.

(** How [navigator.clipboard.writeText] ends: [navigator.clipboard] is
    undefined (the call throws), the promise resolves, or it rejects. *)
Inductive ClipboardOutcome : Type :=
| Unavailable
| Resolves
| Rejects (err : string).

(** The part of a [change] event the handler reads:
    [event.target.id] and [event.target.value]. *)
Record ChangeEvent : Type := { target : Widget; target_value : string }.

Definition describe (e : exn) : string :=
  match e with
  | TypeError what => "TypeError: " ++ what
  | SyntaxError => "SyntaxError"
  end.

Fixpoint set_display (pane : nat) (v : string) (l : list (nat * string))
  : list (nat * string) :=
  match l with
  | [] => []
  | (p, d) :: rest =>
      if Nat.eqb p pane then (p, v) :: rest
      else (p, d) :: set_display pane v rest
  end.

Definition has_message (pane : nat) (l : list (nat * string)) : bool :=
  existsb (fun pd => Nat.eqb (fst pd) pane) l.

Section Script.

Context (P : Platform) (pg : Page).

(** [normalizeDimension(value)] *)
Definition normalizeDimension (value : string) : string :=
  if Js.matches (Js.Plus (Js.Class Js.is_digit)) value
  then value ++ "px"
  else value.

(** [addEmbedParameter(url)] *)
Definition addEmbedParameter (url : string) : string :=
  match new_URL P url with
  | Some urlObj =>
      let urlObj := UrlApi.set_search_empty urlObj in
      let urlObj := UrlApi.set_hash_empty urlObj in
      let urlObj := UrlApi.searchParams_set "embed" "true" urlObj in
      UrlApi.toString urlObj
  | None =>
      let cleanUrl := Js.first (Js.split Js.is_query_or_hash url) in
      cleanUrl ++ "?embed=true"
  end.

(** The first two blocks of [getStoryTitle], for one selector. *)
Definition selected_label (select : option Select) : option string :=
  match select with
  | Some sel =>
      if Js.truthy (Dom.select_value sel) then
        match Dom.selected_option sel with
        | Some selectedOption =>
            if Js.truthy (opt_value selectedOption)
            then Some (opt_text selectedOption)
            else None
        | None => None
        end
      else None
  | None => None
  end.

(** [getStoryTitle()] *)
Definition getStoryTitle (s : State) : string :=
  match selected_label (shareStorySelect s) with
  | Some t => t
  | None =>
  match selected_label (embedStorySelect s) with
  | Some t => t
  | None =>
  match
    (if Js.truthy (currentStoryUrl s)
        && Nat.ltb 0 (length (availableStories s))
     then find (fun story => story_url story =? currentStoryUrl s)
               (availableStories s)
     else None)
  with
  | Some matchingStory => story_title matchingStory
  | None =>
  match og_title pg with
  | Some content => content
  | None => Js.or_else (document_title pg) "Telar Story"
  end end end end.

(** [generateEmbedCode()] *)
Definition generateEmbedCode : M string :=
  url <- gets currentStoryUrl ;;
  if negb (Js.truthy url) then ret ""
  else
    w <- deref "embedWidthInput" embedWidthInput ;;
    let width := Js.or_else (Js.trim w) "100%" in
    h <- deref "embedHeightInput" embedHeightInput ;;
    let height := Js.or_else (Js.trim h) "800" in
    let widthAttr := normalizeDimension width in
    let heightAttr := normalizeDimension height in
    let embedUrl := addEmbedParameter url in
    storyTitle <- gets getStoryTitle ;;
    ret ("<iframe src=" ++ dquote ++ embedUrl ++ dquote ++ newline
         ++ "  width=" ++ dquote ++ widthAttr ++ dquote ++ newline
         ++ "  height=" ++ dquote ++ heightAttr ++ dquote ++ newline
         ++ "  title=" ++ dquote ++ storyTitle ++ dquote ++ newline
         ++ "  frameborder=" ++ dquote ++ "0" ++ dquote ++ ">" ++ newline
         ++ "</iframe>").

(** [updateEmbedCode()] *)
Definition updateEmbedCode : M unit :=
  when_present embedCodeTextarea (fun _ =>
    code <- generateEmbedCode ;;
    modify (set_embedCodeTextarea (Some code))).

(** [updateShareUrl()] *)
Definition updateShareUrl : M unit :=
  when_present shareSiteUrlInput (fun _ =>
    let pathParts :=
      filter Js.truthy (Js.split Js.is_slash (location_pathname pg)) in
    let baseUrl :=
      location_origin pg
      ++ match pathParts with
         | part0 :: _ => "/" ++ part0 ++ "/"
         | [] => "/"
         end in
    modify (set_shareSiteUrlInput (Some baseUrl))) ;;
  when_present shareUrlInput (fun _ =>
    current <- gets currentStoryUrl ;;
    if Js.truthy current then
      match new_URL P current with
      | Some url =>
          let cleanUrl := url_origin url ++ url_pathname url in
          modify (set_shareUrlInput (Some cleanUrl))
      | None => modify (set_shareUrlInput (Some current))
      end
    else modify (set_shareUrlInput (Some ""))).

(** [handlePanelOpen(event)] *)
Definition handlePanelOpen : M unit :=
  isHomepage <- gets (fun s => match shareStorySelect s with
                               | Some _ => true
                               | None => false
                               end) ;;
  (if isHomepage then
     modify (set_currentStoryUrl "") ;;
     when_present shareStorySelect (fun sel =>
       modify (set_shareStorySelect (Some (Dom.select_set_value "" sel)))) ;;
     when_present embedStorySelect (fun sel =>
       modify (set_embedStorySelect (Some (Dom.select_set_value "" sel)))) ;;
     when_present shareUrlInput (fun _ =>
       modify (set_shareUrlInput (Some ""))) ;;
     when_present shareCopyLinkBtn (fun b =>
       modify (set_shareCopyLinkBtn (Some (set_disabled true b)))) ;;
     when_present embedCodeTextarea (fun _ =>
       modify (set_embedCodeTextarea (Some ""))) ;;
     when_present embedCopyCodeBtn (fun b =>
       modify (set_embedCopyCodeBtn (Some (set_disabled true b))))
   else
     modify (set_currentStoryUrl (location_href pg))) ;;
  updateShareUrl ;;
  updateEmbedCode.

(** The text of the placeholder option in [populateStorySelectors]:
    [lang.share.select_option || 'Select'] inside its [try], ['Select']
    when there is no language data or reading it throws. *)
Definition select_option_text : string :=
  match dataset_lang pg with
  | Some langData =>
      if Js.truthy langData then
        match JSON_parse_lang P langData with
        | Some lang =>
            match lang_share lang with
            | Some share =>
                match select_option share with
                | Some t => Js.or_else t "Select"
                | None => "Select"
                end
            | None => "Select"
            end
        | None => "Select"
        end
      else "Select"
  | None => "Select"
  end.

Definition story_option (story : Story) : OptionEl :=
  {| opt_value := story_url story; opt_text := story_title story |}.

(** [populateStorySelectors()] *)
Definition populateStorySelectors : M unit :=
  stories <- gets availableStories ;;
  if Nat.eqb (length stories) 0 then ret tt
  else
    forEach [ShareStorySelect; EmbedStorySelect] (fun w =>
      when_present (get_select w) (fun select =>
        let defaultOption :=
          {| opt_value := ""; opt_text := select_option_text |} in
        modify (set_select w
          (Some (Dom.select_refill
                   (defaultOption :: map story_option stories) select))))).

(** [loadAvailableStories()] *)
Definition loadAvailableStories : M unit :=
  match telar_stories_data pg with
  | Some textContent =>
      try_catch
        (match JSON_parse_stories P textContent with
         | Some stories =>
             modify (set_availableStories stories) ;;
             populateStorySelectors
         | None => throw SyntaxError
         end)
        (fun _ => emit (ConsoleWarn "[Telar Share] Could not parse stories data"))
  | None => ret tt
  end.

(** [handleStoryChange(event)] *)
Definition handleStoryChange (event : ChangeEvent) : M unit :=
  let selectedValue := target_value event in
  modify (set_currentStoryUrl selectedValue) ;;
  match target event with
  | ShareStorySelect =>
      when_present embedStorySelect (fun sel =>
        modify (set_embedStorySelect
                  (Some (Dom.select_set_value selectedValue sel))))
  | EmbedStorySelect =>
      when_present shareStorySelect (fun sel =>
        modify (set_shareStorySelect
                  (Some (Dom.select_set_value selectedValue sel))))
  end ;;
  hasSelection <- gets (fun s => negb (currentStoryUrl s =? "")) ;;
  when_present shareCopyLinkBtn (fun b =>
    modify (set_shareCopyLinkBtn (Some (set_disabled (negb hasSelection) b)))) ;;
  when_present embedCopyCodeBtn (fun b =>
    modify (set_embedCopyCodeBtn (Some (set_disabled (negb hasSelection) b)))) ;;
  updateShareUrl ;;
  updateEmbedCode.

(** [handlePresetChange(event)], [preset] being [event.target.value] *)
Definition handlePresetChange (preset : string) : M unit :=
  match presets_get preset with
  | Undefined => ret tt
  | found =>
      _ <- deref "embedWidthInput" embedWidthInput ;;
      modify (set_embedWidthInput (Some (member_as_value width found))) ;;
      _ <- deref "embedHeightInput" embedHeightInput ;;
      modify (set_embedHeightInput (Some (member_as_value height found))) ;;
      updateEmbedCode
  end.

(** [showSuccessFeedback(triggerButton)] *)
Definition showSuccessFeedback (triggerButton : ButtonId) : M unit :=
  btn <- deref "triggerButton" (get_button triggerButton) ;;
  match btn_tab_pane btn with
  | Some tab =>
      shown <- gets (fun s => has_message tab (successMessages s)) ;;
      if shown then
        modify (fun s =>
          set_successMessages (set_display tab "block" (successMessages s)) s) ;;
        emit (SetTimeout (HideSuccessMessage tab) 3000)
      else ret tt
  | None => ret tt
  end ;;
  match btn_icon btn with
  | Some originalIcon =>
      modify (set_button triggerButton (Some (set_icon "check_circle" btn))) ;;
      emit (SetTimeout (RestoreIcon triggerButton originalIcon) 2000)
  | None => ret tt
  end.

(** The rejection handler of [copyToClipboard]. *)
Definition copy_failed (text : string) (err : string) : M unit :=
  emit (ConsoleError "[Telar Share] Failed to copy:" err) ;;
  if Js.truthy text then emit (Alert "Please manually copy the text")
  else ret tt.

(** [copyToClipboard(text, triggerButton)], given how the write ends.  The
    [then] callback runs when it resolves, and an exception thrown there
    rejects the promise the [catch] callback is attached to. *)
Definition copyToClipboard (text : string) (triggerButton : ButtonId)
    (o : ClipboardOutcome) : M unit :=
  match o with
  | Unavailable => throw (TypeError "navigator.clipboard")
  | Resolves =>
      emit (ClipboardWriteText text) ;;
      try_catch (showSuccessFeedback triggerButton)
                (fun e => copy_failed text (describe e))
  | Rejects err => copy_failed text err
  end.

(** [copyShareLink()] *)
Definition copyShareLink (o : ClipboardOutcome) : M unit :=
  when_present shareUrlInput (fun v => copyToClipboard v ShareCopyLinkBtn o).

(** [copySiteLink()] *)
Definition copySiteLink (o : ClipboardOutcome) : M unit :=
  when_present shareSiteUrlInput (fun v =>
    copyToClipboard v ShareCopySiteBtn o).

(** [copyEmbedCode()] *)
Definition copyEmbedCode (o : ClipboardOutcome) : M unit :=
  when_present embedCodeTextarea (fun v =>
    copyToClipboard v EmbedCopyCodeBtn o).

(** [init()] after the listeners are attached. *)
Definition init : M unit :=
  panel <- gets sharePanel ;;
  if negb panel then ret tt
  else
    loadAvailableStories ;;
    emit (ConsoleLog "[Telar Share] Share panel initialized").

(** *** Events

    What the page can do to the script once [init] has attached its
    listeners.  A listener exists when the panel and its element do; the
    browser updates the element the user acted on before it calls the
    listener; a disabled button receives no click. *)

Inductive Event : Type :=
| ShowModal
| Click (b : ButtonId) (o : ClipboardOutcome)
| ChangePreset (i : nat)
| InputWidth (v : string)
| InputHeight (v : string)
| ChangeStory (w : Widget) (i : nat).

Definition on_click (b : ButtonId) (o : ClipboardOutcome) : M unit :=
  match b with
  | ShareCopyLinkBtn => copyShareLink o
  | ShareCopySiteBtn => copySiteLink o
  | EmbedCopyCodeBtn => copyEmbedCode o
  end.

Definition dispatch (ev : Event) : M unit :=
  panel <- gets sharePanel ;;
  if negb panel then ret tt
  else
    match ev with
    | ShowModal => handlePanelOpen
    | Click b o =>
        when_present (get_button b) (fun btn =>
          if btn_disabled btn then ret tt else on_click b o)
    | ChangePreset i =>
        when_present embedPresetSelect (fun sel =>
          match nth_error (options sel) i with
          | Some picked =>
              modify (set_embedPresetSelect (Some (Dom.select_pick i sel))) ;;
              handlePresetChange (opt_value picked)
          | None => ret tt
          end)
    | InputWidth v =>
        when_present embedWidthInput (fun _ =>
          modify (set_embedWidthInput (Some v)) ;;
          updateEmbedCode)
    | InputHeight v =>
        when_present embedHeightInput (fun _ =>
          modify (set_embedHeightInput (Some v)) ;;
          updateEmbedCode)
    | ChangeStory w i =>
        when_present (get_select w) (fun sel =>
          match nth_error (options sel) i with
          | Some picked =>
              modify (set_select w (Some (Dom.select_pick i sel))) ;;
              handleStoryChange
                {| target := w; target_value := opt_value picked |}
          | None => ret tt
          end)
    end.

(** The state in which the script starts: the closure variables as
    initialized at their declarations. *)
Definition fresh (s : State) : Prop :=
  currentStoryUrl s = location_href pg /\ availableStories s = [].

(** The states the script can be in. *)
Inductive reachable : State -> Prop :=
| reachable_init (s : State) :
    fresh s -> reachable (run init s)
| reachable_step (s : State) (ev : Event) :
    reachable s -> reachable (run (dispatch ev) s).

End Script.

(* ===================================================================== *)
(** ** A URL parser to run the script on *)
(* ===================================================================== *)

(** Byte-string helpers. *)
Module Str.

Fixpoint all (p : ascii -> bool) (s : string) : bool :=
  match s with
  | EmptyString => true
  | String c r => p c && all p r
  end.

(** The longest prefix free of [p], and what follows it. *)
Fixpoint break (p : ascii -> bool) (s : string) : string * string :=
  match s with
  | EmptyString => (EmptyString, EmptyString)
  | String c r =>
      if p c then (EmptyString, s)
      else let (a, b) := break p r in (String c a, b)
  end.

Fixpoint remove (p : ascii -> bool) (s : string) : string :=
  match s with
  | EmptyString => EmptyString
  | String c r => if p c then remove p r else String c (remove p r)
  end.

Fixpoint map (f : ascii -> ascii) (s : string) : string :=
  match s with
  | EmptyString => EmptyString
  | String c r => String (f c) (map f r)
  end.

Definition tail (s : string) : string :=
  match s with
  | EmptyString => EmptyString
  | String _ r => r
  end.

Definition starts_with (p : ascii -> bool) (s : string) : bool :=
  match s with
  | EmptyString => false
  | String c _ => p c
  end.

Definition just (c d : ascii) : bool := Ascii.eqb d c.

Definition neither (p : ascii -> bool) (c : ascii) : bool := negb (p c).

End Str.

(** The URL parser of the URL Standard, cut down to absolute URLs of the
    shape [scheme://[user@]host[/path][?query][#fragment]] with no port, no
    password, no bracketed host, and a path of unreserved characters and
    slashes.  On an input of that shape it follows the standard's states
    (strip and remove control characters; scheme; authority; host; path;
    query; fragment).  It rejects every other input, which for inputs outside
    that shape can differ from the standard.  The theorems below hold for any
    parser that meets [UrlLaws]; this one shows that the laws can be met and
    gives the script something to run on. *)
Module Whatwg.

Definition c0_or_space (c : ascii) : bool := Nat.leb (Js.code c) 32.

Fixpoint lstrip (s : string) : string :=
  match s with
  | EmptyString => EmptyString
  | String c r => if c0_or_space c then lstrip r else s
  end.

Fixpoint rstrip (s : string) : string :=
  match s with
  | EmptyString => EmptyString
  | String c r =>
      let r' := rstrip r in
      if (r' =? "") && c0_or_space c then EmptyString else String c r'
  end.

Definition tab_or_newline (c : ascii) : bool :=
  Js.is_code 9 c || Js.is_code 10 c || Js.is_code 13 c.

(** The first steps of the parser: leading and trailing C0 controls and
    spaces are removed, then every tab and newline. *)
Definition preprocess (s : string) : string :=
  Str.remove tab_or_newline (rstrip (lstrip s)).

Definition is_upper (c : ascii) : bool := Js.between 65 90 c.
Definition is_lower (c : ascii) : bool := Js.between 97 122 c.
Definition is_alpha (c : ascii) : bool := is_upper c || is_lower c.

Definition lower (c : ascii) : ascii :=
  if is_upper c then ascii_of_nat (Js.code c + 32) else c.

Definition scheme_char (c : ascii) : bool :=
  UrlApi.is_alnum c || Js.is_code 43 c || Js.is_code 45 c || Js.is_code 46 c.

Definition valid_scheme (s : string) : bool :=
  Str.starts_with is_alpha s && Str.all scheme_char s.

Definition special (scheme : string) : bool :=
  existsb (String.eqb scheme) ["http"; "https"; "ws"; "wss"; "ftp"].

Definition outside (scheme : string) : bool := scheme =? "file".

(** Unreserved characters: left alone by every percent-encode set. *)
Definition unreserved (c : ascii) : bool :=
  UrlApi.is_alnum c || Js.is_code 45 c || Js.is_code 46 c
  || Js.is_code 95 c || Js.is_code 126 c.

Definition user_char (c : ascii) : bool := unreserved c.

Definition path_char (c : ascii) : bool :=
  UrlApi.is_alnum c || Js.is_code 45 c || Js.is_code 95 c
  || Js.is_code 126 c || Js.is_code 47 c.

(** Forbidden host code points. *)
Definition forbidden_host (c : ascii) : bool :=
  existsb (fun n => Js.is_code n c)
    [0; 9; 10; 13; 32; 35; 47; 58; 60; 62; 63; 64; 91; 92; 93; 94; 124].

Fixpoint percent_encode (set : ascii -> bool) (s : string) : string :=
  match s with
  | EmptyString => EmptyString
  | String c r =>
      (if set c then UrlApi.percent_byte c else String c EmptyString)
      ++ percent_encode set r
  end.

(** The C0 control percent-encode set. *)
Definition c0_set (c : ascii) : bool :=
  Nat.ltb (Js.code c) 32 || Nat.ltb 126 (Js.code c).

Definition query_set (c : ascii) : bool :=
  c0_set c
  || existsb (fun n => Js.is_code n c) [32; 34; 35; 60; 62].

Definition special_query_set (c : ascii) : bool :=
  query_set c || Js.is_code 39 c.

Definition fragment_set (c : ascii) : bool :=
  c0_set c
  || existsb (fun n => Js.is_code n c) [32; 34; 60; 62; 96].

(** The opaque-host parser. *)
Definition opaque_host (input : string) : option string :=
  if Str.all (Str.neither forbidden_host) input
  then Some (percent_encode c0_set input)
  else None.

(** Domains made of non-empty labels of ASCII letters: for these the
    domain-to-ASCII step is lower-casing and the result is not a number. *)
Definition label_ok (l : string) : bool :=
  negb (l =? "") && Str.all is_alpha l.

Definition domain_host (input : string) : option string :=
  if forallb label_ok (Js.split (Str.just "."%char) input)
  then Some (Str.map lower input)
  else None.

Definition parse_host (is_special : bool) (input : string) : option string :=
  if is_special then domain_host input else opaque_host input.

(** Scheme, user name, host and path of a parsed URL. *)
Record Head : Type := {
  h_scheme : string;
  h_user : string;
  h_host : string;
  h_path : string
}.

Definition serialize (h : Head) : string :=
  h_scheme h ++ "://"
  ++ (if h_user h =? "" then "" else h_user h ++ "@")
  ++ h_host h ++ h_path h.

(** User name and host of an authority. *)
Definition parse_authority (is_special : bool) (auth : string)
  : option (string * string) :=
  let (before, from_at) := Str.break (Str.just "@"%char) auth in
  match from_at with
  | EmptyString =>
      match parse_host is_special before with
      | Some host => Some (EmptyString, host)
      | None => None
      end
  | String _ hostpart =>
      if Str.all user_char before && negb (hostpart =? "") then
        match parse_host is_special hostpart with
        | Some host => Some (before, host)
        | None => None
        end
      else None
  end.

Definition parse_head (head : string) : option Head :=
  let (sch, rest) := Str.break (Str.just ":"%char) head in
  match rest with
  | String _ (String s1 (String s2 after)) =>
      let scheme := Str.map lower sch in
      if valid_scheme sch && negb (outside scheme)
         && Str.just "/"%char s1 && Str.just "/"%char s2
      then
        let (auth, path) := Str.break Js.is_slash after in
        if Str.all path_char path then
          match parse_authority (special scheme) auth with
          | Some (user, host) =>
              Some {| h_scheme := scheme; h_user := user; h_host := host;
                      h_path := if special scheme && (path =? "")
                                then "/" else path |}
          | None => None
          end
        else None
      else None
  | _ => None
  end.

Definition hex_value (c : ascii) : option nat :=
  if Js.between 48 57 c then Some (Js.code c - 48)
  else if Js.between 65 70 c then Some (Js.code c - 55)
  else if Js.between 97 102 c then Some (Js.code c - 87)
  else None.

Fixpoint percent_decode (s : string) : string :=
  match s with
  | EmptyString => EmptyString
  | String c r =>
      match c, r with
      | "%"%char, String a (String b r') =>
          match hex_value a, hex_value b with
          | Some x, Some y =>
              String (ascii_of_nat (16 * x + y)) (percent_decode r')
          | _, _ => String c (percent_decode r)
          end
      | _, _ => String c (percent_decode r)
      end
  end.

Definition plus_to_space (c : ascii) : ascii :=
  if Js.is_code 43 c then " "%char else c.

(** The application/x-www-form-urlencoded parser. *)
Definition urlencoded_parse (q : string) : list (string * string) :=
  List.map
    (fun piece =>
       let (n, v) := Str.break (Str.just "="%char) piece in
       (percent_decode (Str.map plus_to_space n),
        percent_decode (Str.map plus_to_space (Str.tail v))))
    (filter Js.truthy (Js.split (Str.just "&"%char) q)).

(** [new URL(input)] with no base. *)
Definition parse (input : string) : option URL :=
  let (head, rest) := Str.break Js.is_query_or_hash (preprocess input) in
  match parse_head head with
  | Some h =>
      let (q, f) :=
        if Str.starts_with (Str.just "?"%char) rest
        then Str.break (Str.just "#"%char) (Str.tail rest)
        else (EmptyString, rest) in
      let qset :=
        if special (h_scheme h) then special_query_set else query_set in
      let query :=
        if Str.starts_with (Str.just "?"%char) rest
        then Some (percent_encode qset q) else None in
      let fragment :=
        if Str.starts_with (Str.just "#"%char) f
        then Some (percent_encode fragment_set (Str.tail f)) else None in
      Some {| url_origin :=
                if special (h_scheme h)
                then h_scheme h ++ "://" ++ h_host h else "null";
              url_pathname := h_path h;
              url_base := serialize h;
              url_query := query;
              url_fragment := fragment;
              url_searchParams :=
                match query with
                | Some q' => urlencoded_parse q'
                | None => []
                end |}
  | None => None
  end.

(** The bytes that end a component or are removed before parsing. *)
Definition reserved (c : ascii) : bool :=
  existsb (fun n => Js.is_code n c) [9; 10; 13; 35; 47; 58; 63; 64].

(** The heads the parser produces. *)
Definition canonical (h : Head) : Prop :=
  valid_scheme (h_scheme h) = true
  /\ Str.map lower (h_scheme h) = h_scheme h
  /\ outside (h_scheme h) = false
  /\ Str.all user_char (h_user h) = true
  /\ parse_host (special (h_scheme h)) (h_host h) = Some (h_host h)
  /\ (h_user h <> "" -> h_host h <> "")
  /\ Str.all path_char (h_path h) = true
  /\ (h_path h = "" \/ Str.starts_with Js.is_slash (h_path h) = true)
  /\ (special (h_scheme h) = true -> h_path h <> "").

End Whatwg.

(* ===================================================================== *)
(** ** Vocabulary of the properties *)
(* ===================================================================== *)

Definition no_query_or_hash (s : string) : bool :=
  Str.all (Str.neither Js.is_query_or_hash) s.

(** What the properties of [addEmbedParameter] need from [new URL]: the
    serialization in front of the query holds no [?] and no [#], and a
    serialized URL parses again to the same scheme, authority and path
    whatever query follows. *)
Record UrlLaws (P : Platform) : Prop := {
  base_has_no_query_or_hash :
    forall u o, new_URL P u = Some o -> no_query_or_hash (url_base o) = true;
  base_reparses :
    forall u o q,
      new_URL P u = Some o ->
      exists o', new_URL P (url_base o ++ "?" ++ q) = Some o'
                 /\ url_base o' = url_base o
}.

(** Reading a URL string back: what follows the first [#], what lies
    between the first [?] and the fragment, and the [name=value] pairs of a
    query string. *)
Definition fragment_of (s : string) : option string :=
  let (_, f) := Str.break (Str.just "#"%char) s in
  if Str.starts_with (Str.just "#"%char) f then Some (Str.tail f) else None.

Definition query_of (s : string) : option string :=
  let (b, _) := Str.break (Str.just "#"%char) s in
  let (_, q) := Str.break (Str.just "?"%char) b in
  if Str.starts_with (Str.just "?"%char) q then Some (Str.tail q) else None.

Definition pairs_of (q : option string) : list (string * string) :=
  match q with
  | Some q =>
      List.map
        (fun piece =>
           let (n, v) := Str.break (Str.just "="%char) piece in
           (n, Str.tail v))
        (filter Js.truthy (Js.split (Str.just "&"%char) q))
  | None => []
  end.

(** The parameters named [embed] in the query of a URL string. *)
Definition embed_parameters (s : string) : list (string * string) :=
  filter (fun nv => fst nv =? "embed") (pairs_of (query_of s)).

(** A string of one or more decimal digits and nothing else. *)
Definition decimal_digits : list ascii :=
  ["0"; "1"; "2"; "3"; "4"; "5"; "6"; "7"; "8"; "9"]%char.

Definition digits_only (s : string) : Prop :=
  s <> "" /\ forall c, In c (list_ascii_of_string s) -> In c decimal_digits.

(** A platform for a page whose two JSON payloads decode to the given
    values ([None]: [JSON.parse] throws), with [Whatwg.parse] as URL
    parser. *)
Definition page_platform (catalog : option (list Story)) (lang : option Lang)
  : Platform :=
  {| new_URL := Whatwg.parse;
     JSON_parse_stories := fun _ => catalog;
     JSON_parse_lang := fun _ => lang |}.

(* ===================================================================== *)
(** ** Vocabulary of the controller's properties *)
(* ===================================================================== *)

(** An input or textarea that is absent or holds the empty string. *)
Definition blank (field : option string) : Prop :=
  forall v, field = Some v -> v = "".

(** A button that is absent or disabled. *)
Definition off (b : option Button) : Prop :=
  forall x, b = Some x -> btn_disabled x = true.

(** Both derived fields blank and both copy controls disabled. *)
Definition cleared (s : State) : Prop :=
  blank (shareUrlInput s) /\ blank (embedCodeTextarea s)
  /\ off (shareCopyLinkBtn s) /\ off (embedCopyCodeBtn s).

Definition disabled_flag (b : option Button) : option bool :=
  option_map btn_disabled b.

(** The selection, the catalog, the dimensions, the derived fields, the
    selectors and the disabled flags are the same in both states. *)
Definition same_controller (s s' : State) : Prop :=
  currentStoryUrl s' = currentStoryUrl s
  /\ availableStories s' = availableStories s
  /\ embedWidthInput s' = embedWidthInput s
  /\ embedHeightInput s' = embedHeightInput s
  /\ shareUrlInput s' = shareUrlInput s
  /\ shareSiteUrlInput s' = shareSiteUrlInput s
  /\ embedCodeTextarea s' = embedCodeTextarea s
  /\ shareStorySelect s' = shareStorySelect s
  /\ embedStorySelect s' = embedStorySelect s
  /\ embedPresetSelect s' = embedPresetSelect s
  /\ disabled_flag (shareCopyLinkBtn s') = disabled_flag (shareCopyLinkBtn s)
  /\ disabled_flag (shareCopySiteBtn s') = disabled_flag (shareCopySiteBtn s)
  /\ disabled_flag (embedCopyCodeBtn s') = disabled_flag (embedCopyCodeBtn s).

(** The other story selector. *)
Definition sibling (w : Widget) : Widget :=
  match w with
  | ShareStorySelect => EmbedStorySelect
  | EmbedStorySelect => ShareStorySelect
  end.

(** [select.value] of a selector that may be absent. *)
Definition widget_value (w : Widget) (s : State) : option string :=
  option_map Dom.select_value (get_select w s).

Definition offers (v : string) (sel : Select) : Prop :=
  exists o, In o (options sel) /\ opt_value o = v.

(** The title by priority, after the wording of the specification: (a) the
    label of the option selected in a selector whose selection is not
    empty, the share selector before the embed selector; (b) the title of
    the first catalog entry with the current URL; (c) the [og:title] of the
    page; (d) the document title; (e) the literal. *)
Definition label_of_selection (sel : option Select) : option string :=
  match sel with
  | Some x =>
      match selectedIndex x with
      | Some i =>
          match nth_error (options x) i with
          | Some o => if opt_value o =? "" then None else Some (opt_text o)
          | None => None
          end
      | None => None
      end
  | None => None
  end.

Fixpoint catalog_title (url : string) (catalog : list Story) : option string :=
  match catalog with
  | [] => None
  | story :: rest =>
      if story_url story =? url then Some (story_title story)
      else catalog_title url rest
  end.

Definition title_by_priority (pg : Page) (s : State) : string :=
  match label_of_selection (shareStorySelect s) with
  | Some label => label
  | None =>
  match label_of_selection (embedStorySelect s) with
  | Some label => label
  | None =>
  match catalog_title (currentStoryUrl s) (availableStories s) with
  | Some t => t
  | None =>
  match og_title pg with
  | Some content => content
  | None =>
      if document_title pg =? "" then "Telar Story" else document_title pg
  end end end end.

(** *** What the two update functions write *)

(** The site URL [updateShareUrl] computes: the origin and the first
    segment of the path. *)
Definition site_url (pg : Page) : string :=
  location_origin pg
  ++ match filter Js.truthy (Js.split Js.is_slash (location_pathname pg)) with
     | part0 :: _ => "/" ++ part0 ++ "/"
     | [] => "/"
     end.

(** The story URL [updateShareUrl] computes from the current selection. *)
Definition share_url (P : Platform) (current : string) : string :=
  if Js.truthy current then
    match new_URL P current with
    | Some url => url_origin url ++ url_pathname url
    | None => current
    end
  else "".

(** The content of the embed textarea after [updateEmbedCode], and how
    [updateEmbedCode] ends. *)
Definition embed_code_shown (P : Platform) (pg : Page) (s : State)
  : option string :=
  match embedCodeTextarea s with
  | Some old =>
      Some match fst (generateEmbedCode P pg s) with
           | Ok code => code
           | Throw _ => old
           end
  | None => None
  end.

Definition embed_outcome (P : Platform) (pg : Page) (s : State)
  : result unit :=
  match embedCodeTextarea s with
  | Some _ =>
      match fst (generateEmbedCode P pg s) with
      | Ok _ => Ok tt
      | Throw e => Throw e
      end
  | None => Ok tt
  end.

(** If the selection is empty, the derived fields are blank and the copy
    controls disabled. *)
Definition selection_invariant (s : State) : Prop :=
  currentStoryUrl s = "" -> cleared s.

(** *** The first segment of a path *)

Fixpoint drop_slashes (s : string) : string :=
  match s with
  | EmptyString => EmptyString
  | String c r => if Js.is_slash c then drop_slashes r else s
  end.

(** What stands between the leading slashes of a path and its next
    slash. *)
Definition first_segment (path : string) : string :=
  fst (Str.break Js.is_slash (drop_slashes path)).

(** The options [populateStorySelectors] gives a selector. *)
Definition catalog_options (P : Platform) (pg : Page) (stories : list Story)
  : list OptionEl :=
  {| opt_value := ""; opt_text := select_option_text P pg |}
  :: List.map story_option stories.

(** The panel exists and each selector that exists has the options of the
    catalog. *)
Definition selectors_loaded (P : Platform) (pg : Page) (stories : list Story)
    (s : State) : Prop :=
  sharePanel s = true
  /\ forall w sel, get_select w s = Some sel ->
                   options sel = catalog_options P pg stories.

(** Nothing the handlers do removes the panel, a selector, or changes the
    options of a selector. *)
Definition keeps_selector_options (s s' : State) : Prop :=
  sharePanel s' = sharePanel s
  /\ option_map options (shareStorySelect s')
     = option_map options (shareStorySelect s)
  /\ option_map options (embedStorySelect s')
     = option_map options (embedStorySelect s).

(** The two selectors, when both exist, list the same options. *)
Definition same_options (s : State) : Prop :=
  forall a b, shareStorySelect s = Some a -> embedStorySelect s = Some b ->
              options a = options b.

(** What the rejection handler of [copyToClipboard] shows: the logged error
    and the manual-copy notice. *)
Definition failure_report (e : Effect) : bool :=
  match e with
  | ConsoleError _ _ | Alert _ => true
  | _ => false
  end.

(** *** Pages and states to run the script on *)

Definition enabled_button (pane : nat) : Button :=
  {| btn_disabled := false; btn_tab_pane := Some pane;
     btn_icon := Some "content_copy" |}.

Definition placeholder_only : Select :=
  {| options := [ {| opt_value := ""; opt_text := "Select" |} ];
     selectedIndex := Some 0 |}.

Definition preset_options : Select :=
  {| options :=
       List.map (fun k => {| opt_value := k; opt_text := k |})
         ["canvas"; "moodle"; "wordpress"; "squarespace"; "wix"; "mobile";
          "fixed"; "custom"];
     selectedIndex := Some 0 |}.

(** A page with the whole panel, as the script finds it when it starts:
    [with_selectors] tells whether the two story selectors are there. *)
Definition start_state (href : string) (with_selectors : bool) : State :=
  {| currentStoryUrl := href;
     availableStories := [];
     sharePanel := true;
     shareUrlInput := Some "";
     shareCopyLinkBtn := Some (enabled_button 0);
     shareSiteUrlInput := Some "";
     shareCopySiteBtn := Some (enabled_button 0);
     shareStorySelect := if with_selectors then Some placeholder_only else None;
     embedPresetSelect := Some preset_options;
     embedWidthInput := Some "100%";
     embedHeightInput := Some "800";
     embedCodeTextarea := Some "";
     embedCopyCodeBtn := Some (enabled_button 1);
     embedStorySelect := if with_selectors then Some placeholder_only else None;
     successMessages := [(0, "none"); (1, "none")];
     effects := [] |}.

(** The home page of a site served under [/paisajes/]. *)
Definition home_page : Page :=
  {| location_href := "https://x/paisajes/";
     location_origin := "https://x";
     location_pathname := "/paisajes/";
     document_title := "Paisajes";
     og_title := None;
     dataset_lang := None;
     telar_stories_data := Some "stories" |}.

(** A story page, opened with viewer state in its URL. *)
Definition story_page : Page :=
  {| location_href := "https://x/story?foo=1#bar";
     location_origin := "https://x";
     location_pathname := "/story";
     document_title := "A story";
     og_title := Some "Story A";
     dataset_lang := None;
     telar_stories_data := None |}.

Definition story_a : Story :=
  {| story_url := "https://x/a"; story_title := "Story A" |}.

Definition control_1 : string := String (ascii_of_nat 1) EmptyString.

(** The platform and the states of the examples: the home page before and
    after the catalog of one story is loaded, a home page whose embed
    selector was left without the story, and a story page. *)
Definition browser : Platform := page_platform (Some [story_a]) None.

Definition home_start : State := start_state (location_href home_page) true.

Definition home_loaded : State := run (init browser home_page) home_start.

Definition story_start : State :=
  start_state (location_href story_page) false.

(* ===================================================================== *)
(** ** Regular expressions and [normalizeDimension] *)
(* ===================================================================== *)

Lemma matches_Never (s : string) : Js.matches Js.Never s = false.
Proof. induction s; simpl; auto. Qed.

Lemma matches_Alt (r1 r2 : Js.regex) (s : string) :
  Js.matches (Js.Alt r1 r2) s = Js.matches r1 s || Js.matches r2 s.
Proof.
  revert r1 r2; induction s as [|c s IH]; intros r1 r2; simpl; auto.
Qed.

Lemma matches_Cat_Never (r : Js.regex) (s : string) :
  Js.matches (Js.Cat Js.Never r) s = false.
Proof. induction s; simpl; auto. Qed.

Lemma matches_Cat_Empty (r : Js.regex) (s : string) :
  Js.matches (Js.Cat Js.Empty r) s = Js.matches r s.
Proof.
  destruct s as [|c s]; simpl; auto.
  now rewrite matches_Alt, matches_Cat_Never.
Qed.

Lemma matches_Star_Class (p : ascii -> bool) (s : string) :
  Js.matches (Js.Star (Js.Class p)) s = Str.all p s.
Proof.
  induction s as [|c s IH]; simpl; auto.
  destruct (p c); simpl.
  - now rewrite matches_Cat_Empty.
  - apply matches_Cat_Never.
Qed.

Lemma matches_Plus_Class (p : ascii -> bool) (s : string) :
  Js.matches (Js.Plus (Js.Class p)) s = negb (s =? "") && Str.all p s.
Proof.
  destruct s as [|c s]; simpl; auto.
  destruct (p c); simpl.
  - now rewrite matches_Cat_Empty, matches_Star_Class.
  - apply matches_Cat_Never.
Qed.

Lemma is_digit_decimal (c : ascii) :
  Js.is_digit c = true <-> In c decimal_digits.
Proof.
  split.
  - destruct c as [[] [] [] [] [] [] [] []]; vm_compute; intro H;
      try discriminate H; tauto.
  - intro H; repeat (destruct H as [<-|H]; [reflexivity|]); destruct H.
Qed.

Lemma all_digits_spec (s : string) :
  Str.all Js.is_digit s = true
  <-> forall c, In c (list_ascii_of_string s) -> In c decimal_digits.
Proof.
  induction s as [|a s IH]; simpl.
  - split; [intros _ c []|reflexivity].
  - rewrite andb_true_iff, IH, is_digit_decimal. split.
    + intros [Ha Hs] c [Hc|Hc]; [now subst c|now apply Hs].
    + intros H; split; [apply H; now left|intros c Hc; apply H; now right].
Qed.

Lemma digits_only_spec (s : string) :
  Js.matches (Js.Plus (Js.Class Js.is_digit)) s = true <-> digits_only s.
Proof.
  rewrite matches_Plus_Class, andb_true_iff, negb_true_iff, all_digits_spec.
  unfold digits_only. rewrite String.eqb_neq. tauto.
Qed.

Lemma digit_code (c : ascii) :
  Js.is_digit c = true -> 48 <= Js.code c <= 57.
Proof.
  unfold Js.is_digit, Js.between. rewrite andb_true_iff, !Nat.leb_le. tauto.
Qed.

Lemma digit_is_code (n : nat) (c : ascii) :
  Js.is_digit c = true -> n < 48 \/ 57 < n -> Js.is_code n c = false.
Proof.
  intros H Hn. apply digit_code in H. unfold Js.is_code.
  apply Nat.eqb_neq. lia.
Qed.

Lemma digit_between (lo hi : nat) (c : ascii) :
  Js.is_digit c = true -> hi < 48 \/ 57 < lo -> Js.between lo hi c = false.
Proof.
  intros H Hn. apply digit_code in H. unfold Js.between.
  apply andb_false_iff. rewrite !Nat.leb_gt. lia.
Qed.

Ltac digit_facts H :=
  repeat first
    [ rewrite (digit_is_code _ _ H) by lia
    | rewrite (digit_between _ _ _ H) by lia ];
  repeat rewrite andb_false_r; simpl.

Lemma trimStart_digit (c : ascii) (r : string) :
  Js.is_digit c = true -> Js.trimStart (String c r) = String c r.
Proof.
  intro H.
  destruct r as [|b [|d r]]; simpl; unfold Js.ws1, Js.ws2, Js.ws3;
    digit_facts H; reflexivity.
Qed.

Lemma trimStart_rev_digit (c : ascii) (r : list ascii) :
  Js.is_digit c = true -> Js.trimStart_rev (c :: r) = c :: r.
Proof.
  intro H.
  destruct r as [|b [|d r]]; simpl; unfold Js.ws1, Js.ws2, Js.ws3;
    digit_facts H; reflexivity.
Qed.

Lemma trim_digits (s : string) :
  s <> "" -> Str.all Js.is_digit s = true -> Js.trim s = s.
Proof.
  intros Hne Hall. unfold Js.trim.
  assert (Hs : Js.trimStart s = s).
  { destruct s as [|c r]; [reflexivity|]. simpl in Hall.
    apply andb_true_iff in Hall as [Hc _]. now apply trimStart_digit. }
  rewrite Hs. unfold Js.trimEnd.
  destruct (rev (list_ascii_of_string s)) as [|a l] eqn:E.
  - apply (f_equal (@rev ascii)) in E. rewrite rev_involutive in E.
    simpl in E. destruct s; [congruence|discriminate E].
  - assert (Ha : Js.is_digit a = true).
    { apply is_digit_decimal. apply (proj1 (all_digits_spec s) Hall).
      apply in_rev. rewrite E. now left. }
    rewrite (trimStart_rev_digit _ _ Ha), <- E, rev_involutive.
    apply string_of_list_ascii_of_string.
Qed.

(** C4. [normalizeDimension] appends [px] to a string of one or more
    decimal digits and nothing else, returns every other string unchanged,
    and so returns an empty or white-space-only string as it is, without a
    default. *)
Theorem normalizeDimension_digits_or_unchanged (value : string) :
  (digits_only value -> normalizeDimension value = value ++ "px")
  /\ (~ digits_only value -> normalizeDimension value = value)
  /\ (Js.trim value = "" -> normalizeDimension value = value).
Proof.
  unfold normalizeDimension.
  destruct (Js.matches (Js.Plus (Js.Class Js.is_digit)) value) eqn:E.
  - apply digits_only_spec in E. split; [|split]; intro H.
    + reflexivity.
    + contradiction.
    + destruct E as [Hne Hall]. apply all_digits_spec in Hall.
      rewrite (trim_digits _ Hne Hall) in H. contradiction.
  - split; [|split]; intro H; try reflexivity.
    apply digits_only_spec in H. congruence.
Qed.

Example normalizeDimension_examples :
  normalizeDimension "800" = "800px"
  /\ normalizeDimension "100%" = "100%"
  /\ normalizeDimension "50vh" = "50vh"
  /\ normalizeDimension "+5" = "+5"
  /\ normalizeDimension "1.5" = "1.5"
  /\ normalizeDimension " 12" = " 12"
  /\ normalizeDimension "" = "".
Proof. repeat split; reflexivity. Qed.

(* ===================================================================== *)
(** ** Byte strings *)
(* ===================================================================== *)

Lemma append_empty_r (s : string) : s ++ "" = s.
Proof. induction s as [|c s IH]; simpl; [reflexivity|now rewrite IH]. Qed.

Lemma append_assoc (a b c : string) : (a ++ b) ++ c = a ++ b ++ c.
Proof. induction a as [|x a IH]; simpl; [reflexivity|now rewrite IH]. Qed.

Lemma all_app (p : ascii -> bool) (a b : string) :
  Str.all p (a ++ b) = Str.all p a && Str.all p b.
Proof.
  induction a as [|c a IH]; simpl; [reflexivity|].
  now rewrite IH, andb_assoc.
Qed.

Lemma all_impl (p q : ascii -> bool) (s : string) :
  (forall c, p c = true -> q c = true) ->
  Str.all p s = true -> Str.all q s = true.
Proof.
  intros Hpq. induction s as [|c s IH]; simpl; [reflexivity|].
  rewrite !andb_true_iff. intros [Hc Hs]. auto.
Qed.

Lemma break_prefix (p : ascii -> bool) (s : string) :
  Str.all (Str.neither p) (fst (Str.break p s)) = true.
Proof.
  induction s as [|c s IH]; simpl; [reflexivity|].
  destruct (p c) eqn:E; simpl; [reflexivity|].
  destruct (Str.break p s) as [a b]. simpl in *.
  unfold Str.neither at 1. now rewrite E.
Qed.

Lemma break_append (p : ascii -> bool) (s : string) :
  fst (Str.break p s) ++ snd (Str.break p s) = s.
Proof.
  induction s as [|c s IH]; simpl; [reflexivity|].
  destruct (p c); simpl; [reflexivity|].
  destruct (Str.break p s) as [a b]. simpl in *. now rewrite IH.
Qed.

Lemma break_rest (p : ascii -> bool) (s : string) :
  snd (Str.break p s) = "" \/ Str.starts_with p (snd (Str.break p s)) = true.
Proof.
  induction s as [|c s IH]; simpl; [now left|].
  destruct (p c) eqn:E; simpl; [now right|].
  destruct (Str.break p s) as [a b]. exact IH.
Qed.

Lemma break_at (p : ascii -> bool) (x y : string) :
  Str.all (Str.neither p) x = true ->
  y = "" \/ Str.starts_with p y = true ->
  Str.break p (x ++ y) = (x, y).
Proof.
  intros Hx Hy. induction x as [|c x IH]; simpl.
  - destruct y as [|d y]; [reflexivity|].
    destruct Hy as [Hy|Hy]; [discriminate Hy|]. simpl in *. now rewrite Hy.
  - simpl in Hx. apply andb_true_iff in Hx as [Hc Hx].
    unfold Str.neither in Hc. apply negb_true_iff in Hc. rewrite Hc.
    now rewrite (IH Hx).
Qed.

Lemma break_none (p : ascii -> bool) (x : string) :
  Str.all (Str.neither p) x = true -> Str.break p x = (x, "").
Proof.
  intro Hx. rewrite <- (append_empty_r x) at 1.
  apply break_at; [exact Hx|now left].
Qed.

Lemma first_split (p : ascii -> bool) (s : string) :
  Js.first (Js.split p s) = fst (Str.break p s).
Proof.
  induction s as [|c s IH]; simpl; [reflexivity|].
  destruct (p c); simpl; [reflexivity|].
  destruct (Js.split p s) as [|piece rest];
    destruct (Str.break p s) as [a b]; simpl in *; now subst.
Qed.

Lemma split_nonempty (p : ascii -> bool) (s : string) : Js.split p s <> [].
Proof.
  destruct s as [|c s]; simpl; [discriminate|].
  destruct (p c); [discriminate|].
  destruct (Js.split p s); discriminate.
Qed.

(* ===================================================================== *)
(** ** [addEmbedParameter] *)
(* ===================================================================== *)

Section EmbedParameter.

Context (P : Platform).

(** The parse-success path: the serialization in front of the query,
    followed by the one parameter. *)
Lemma addEmbedParameter_parsed (u : string) (o : URL) :
  new_URL P u = Some o ->
  addEmbedParameter P u = url_base o ++ "?embed=true".
Proof.
  intro H. unfold addEmbedParameter. rewrite H.
  unfold UrlApi.toString. reflexivity.
Qed.

(** The fallback path: the input cut at its first [?] or [#], followed by
    the one parameter. *)
Lemma addEmbedParameter_fallback (u : string) :
  new_URL P u = None ->
  addEmbedParameter P u
  = fst (Str.break Js.is_query_or_hash u) ++ "?embed=true".
Proof.
  intro H. unfold addEmbedParameter. now rewrite H, first_split.
Qed.

Lemma embed_suffix_read (x : string) :
  no_query_or_hash x = true ->
  fragment_of (x ++ "?embed=true") = None
  /\ query_of (x ++ "?embed=true") = Some "embed=true".
Proof.
  intro Hx. unfold fragment_of, query_of.
  assert (Hh : Str.all (Str.neither (Str.just "#"%char)) (x ++ "?embed=true")
               = true).
  { rewrite all_app. apply andb_true_iff. split; [|reflexivity].
    revert Hx. apply all_impl. intro c. unfold Str.neither, Str.just,
      Js.is_query_or_hash. rewrite !negb_true_iff, orb_false_iff. tauto. }
  rewrite (break_none _ _ Hh). split; [reflexivity|].
  assert (Hq : Str.all (Str.neither (Str.just "?"%char)) x = true).
  { revert Hx. apply all_impl. intro c. unfold Str.neither, Str.just,
      Js.is_query_or_hash. rewrite !negb_true_iff, orb_false_iff. tauto. }
  rewrite (break_at _ x "?embed=true" Hq); [reflexivity|now right].
Qed.

Context (L : UrlLaws P).

Lemma addEmbedParameter_shape (u : string) :
  exists x, no_query_or_hash x = true
            /\ addEmbedParameter P u = x ++ "?embed=true".
Proof.
  destruct (new_URL P u) as [o|] eqn:E.
  - exists (url_base o). split.
    + exact (base_has_no_query_or_hash P L u o E).
    + now apply addEmbedParameter_parsed.
  - exists (fst (Str.break Js.is_query_or_hash u)). split.
    + apply break_prefix.
    + now apply addEmbedParameter_fallback.
Qed.

(** C2. Whether [new URL] accepts the input or the fallback cuts it, the
    result of [addEmbedParameter] has no fragment, and its query holds
    exactly one parameter named [embed], whose value is [true]. *)
Theorem addEmbedParameter_one_embed_no_fragment (u : string) :
  fragment_of (addEmbedParameter P u) = None
  /\ embed_parameters (addEmbedParameter P u) = [("embed", "true")].
Proof.
  destruct (addEmbedParameter_shape u) as (x & Hx & ->).
  destruct (embed_suffix_read x Hx) as [Hf Hq].
  split; [exact Hf|]. unfold embed_parameters. now rewrite Hq.
Qed.

(** C3, as amended. Applying [addEmbedParameter] twice gives what applying
    it once gives, for every input [new URL] accepts, and for every input
    it rejects whose fallback result it rejects as well. *)
Theorem addEmbedParameter_idempotent_when_settled (u : string) :
  new_URL P u <> None \/ new_URL P (addEmbedParameter P u) = None ->
  addEmbedParameter P (addEmbedParameter P u) = addEmbedParameter P u.
Proof.
  intro H. destruct (new_URL P u) as [o|] eqn:E.
  - rewrite (addEmbedParameter_parsed u o E).
    destruct (base_reparses P L u o "embed=true" E) as (o' & Ho' & Hb).
    change (url_base o ++ "?" ++ "embed=true")
      with (url_base o ++ "?embed=true") in Ho'.
    now rewrite (addEmbedParameter_parsed _ o' Ho'), Hb.
  - destruct H as [H|H]; [congruence|].
    rewrite (addEmbedParameter_fallback _ H).
    rewrite (addEmbedParameter_fallback u E).
    rewrite break_at; [reflexivity|apply break_prefix|now right].
Qed.

End EmbedParameter.

(* ===================================================================== *)
(** ** [Whatwg.parse] meets [UrlLaws] *)
(* ===================================================================== *)

Module WhatwgFacts.
Import Whatwg.

(** A property of one byte, decided by running through the 256 bytes. *)
Ltac each_byte c :=
  destruct c as [[] [] [] [] [] [] [] []]; vm_compute;
  try reflexivity; try discriminate; auto.

Lemma scheme_char_free (c : ascii) :
  scheme_char c = true -> Str.neither reserved c = true.
Proof. each_byte c. Qed.

Lemma user_char_free (c : ascii) :
  user_char c = true -> Str.neither reserved c = true.
Proof. each_byte c. Qed.

Lemma host_char_free (c : ascii) :
  Str.neither forbidden_host c = true -> Str.neither reserved c = true.
Proof. each_byte c. Qed.

Lemma alpha_or_dot_free (c : ascii) :
  is_alpha c || Str.just "."%char c = true -> Str.neither reserved c = true.
Proof. each_byte c. Qed.

Lemma path_char_free (c : ascii) :
  path_char c = true ->
  Str.neither (fun c => reserved c && negb (Js.is_slash c)) c = true.
Proof. each_byte c. Qed.

Lemma free_colon (c : ascii) :
  Str.neither reserved c = true -> Str.neither (Str.just ":"%char) c = true.
Proof. each_byte c. Qed.

Lemma free_at (c : ascii) :
  Str.neither reserved c = true -> Str.neither (Str.just "@"%char) c = true.
Proof. each_byte c. Qed.

Lemma free_slash (c : ascii) :
  Str.neither reserved c = true -> Str.neither Js.is_slash c = true.
Proof. each_byte c. Qed.

Lemma free_query_or_hash (c : ascii) :
  Str.neither (fun c => reserved c && negb (Js.is_slash c)) c = true ->
  Str.neither Js.is_query_or_hash c = true.
Proof. each_byte c. Qed.

Lemma free_tab_or_newline (c : ascii) :
  Str.neither (fun c => reserved c && negb (Js.is_slash c)) c = true ->
  Str.neither tab_or_newline c = true.
Proof. each_byte c. Qed.

Lemma free_weaker (c : ascii) :
  Str.neither reserved c = true ->
  Str.neither (fun c => reserved c && negb (Js.is_slash c)) c = true.
Proof. each_byte c. Qed.

Lemma lower_lower (c : ascii) : lower (lower c) = lower c.
Proof. each_byte c. Qed.

Lemma lower_alpha (c : ascii) : is_alpha (lower c) = is_alpha c.
Proof. each_byte c. Qed.

Lemma lower_dot (c : ascii) :
  Str.just "."%char (lower c) = Str.just "."%char c.
Proof. each_byte c. Qed.

Lemma lower_scheme_char (c : ascii) : scheme_char (lower c) = scheme_char c.
Proof. each_byte c. Qed.

Lemma alpha_not_stripped (c : ascii) :
  is_alpha c = true -> c0_or_space c = false.
Proof. each_byte c. Qed.

Lemma percent_byte_fixed (c : ascii) :
  percent_encode c0_set (UrlApi.percent_byte c) = UrlApi.percent_byte c.
Proof. each_byte c. Qed.

Lemma percent_byte_allowed (c : ascii) :
  Str.all (Str.neither forbidden_host) (UrlApi.percent_byte c) = true.
Proof. each_byte c. Qed.

Lemma map_map_lower (s : string) :
  Str.map lower (Str.map lower s) = Str.map lower s.
Proof.
  induction s as [|c s IH]; simpl; [reflexivity|].
  now rewrite lower_lower, IH.
Qed.

Lemma all_map (p : ascii -> bool) (f : ascii -> ascii) (s : string) :
  (forall c, p (f c) = p c) -> Str.all p (Str.map f s) = Str.all p s.
Proof.
  intro H. induction s as [|c s IH]; simpl; [reflexivity|].
  now rewrite H, IH.
Qed.

Lemma map_empty (f : ascii -> ascii) (s : string) :
  (Str.map f s =? "") = (s =? "").
Proof. destruct s; reflexivity. Qed.

Lemma split_map (p : ascii -> bool) (f : ascii -> ascii) (s : string) :
  (forall c, p (f c) = p c) ->
  Js.split p (Str.map f s) = List.map (Str.map f) (Js.split p s).
Proof.
  intro H. induction s as [|c s IH]; simpl; [reflexivity|].
  rewrite H, IH. destruct (p c); [reflexivity|].
  destruct (Js.split p s); reflexivity.
Qed.

Lemma percent_encode_app (set : ascii -> bool) (a b : string) :
  percent_encode set (a ++ b) = percent_encode set a ++ percent_encode set b.
Proof.
  induction a as [|c a IH]; simpl; [reflexivity|].
  now rewrite IH, append_assoc.
Qed.

Lemma percent_encode_fixed (s : string) :
  percent_encode c0_set (percent_encode c0_set s) = percent_encode c0_set s.
Proof.
  induction s as [|c s IH]; simpl; [reflexivity|].
  rewrite percent_encode_app, IH. f_equal.
  destruct (c0_set c) eqn:E.
  - apply percent_byte_fixed.
  - simpl. now rewrite E.
Qed.

Lemma percent_encode_allowed (s : string) :
  Str.all (Str.neither forbidden_host) s = true ->
  Str.all (Str.neither forbidden_host) (percent_encode c0_set s) = true.
Proof.
  induction s as [|c s IH]; simpl; [reflexivity|].
  rewrite andb_true_iff. intros [Hc Hs]. rewrite all_app, (IH Hs), andb_true_r.
  destruct (c0_set c).
  - apply percent_byte_allowed.
  - simpl. now rewrite Hc.
Qed.

Lemma opaque_host_fixed (x y : string) :
  opaque_host x = Some y -> opaque_host y = Some y.
Proof.
  unfold opaque_host.
  destruct (Str.all (Str.neither forbidden_host) x) eqn:E; [|discriminate].
  intros [= <-]. now rewrite (percent_encode_allowed _ E), percent_encode_fixed.
Qed.

Lemma label_ok_lower (l : string) : label_ok (Str.map lower l) = label_ok l.
Proof.
  unfold label_ok. now rewrite map_empty, (all_map _ _ _ lower_alpha).
Qed.

Lemma forallb_map_pre {A B : Type} (f : A -> B) (p : B -> bool) (l : list A) :
  forallb p (List.map f l) = forallb (fun a => p (f a)) l.
Proof. induction l as [|a l IH]; simpl; [reflexivity|now rewrite IH]. Qed.

Lemma forallb_same {A : Type} (p q : A -> bool) (l : list A) :
  (forall a, p a = q a) -> forallb p l = forallb q l.
Proof.
  intro H. induction l as [|a l IH]; simpl; [reflexivity|now rewrite H, IH].
Qed.

Lemma domain_host_fixed (x y : string) :
  domain_host x = Some y -> domain_host y = Some y.
Proof.
  unfold domain_host.
  destruct (forallb label_ok (Js.split (Str.just "."%char) x)) eqn:E;
    [|discriminate].
  intros [= <-]. rewrite (split_map _ _ _ lower_dot), forallb_map_pre.
  rewrite (forallb_same _ label_ok) by (intro; apply label_ok_lower).
  now rewrite E, map_map_lower.
Qed.

Lemma parse_host_fixed (b : bool) (x y : string) :
  parse_host b x = Some y -> parse_host b y = Some y.
Proof.
  destruct b; [apply domain_host_fixed|apply opaque_host_fixed].
Qed.

Lemma pieces_alpha_or_dot (s : string) :
  forallb (Str.all is_alpha) (Js.split (Str.just "."%char) s) = true ->
  Str.all (fun c => is_alpha c || Str.just "."%char c) s = true.
Proof.
  induction s as [|c s IH]; simpl; [reflexivity|].
  destruct (Str.just "."%char c) eqn:E; simpl.
  - intro H. now rewrite orb_true_r, (IH H).
  - destruct (Js.split (Str.just "."%char) s) as [|piece rest] eqn:Es.
    + now destruct (split_nonempty _ _ Es).
    + simpl in *. rewrite !andb_true_iff. intros [[Hc Hp] Hr].
      split; [now rewrite Hc|]. apply IH. now rewrite Hp, Hr.
Qed.

Lemma labels_alpha_or_dot (s : string) :
  forallb label_ok (Js.split (Str.just "."%char) s) = true ->
  Str.all (fun c => is_alpha c || Str.just "."%char c) s = true.
Proof.
  intro H. apply pieces_alpha_or_dot. rewrite forallb_forall in *.
  intros l Hl. specialize (H l Hl). unfold label_ok in H.
  now apply andb_true_iff in H.
Qed.

(** A parsed host holds none of the reserved bytes. *)
Lemma parse_host_free (b : bool) (x y : string) :
  parse_host b x = Some y -> Str.all (Str.neither reserved) y = true.
Proof.
  destruct b; simpl.
  - intro H. pose proof (domain_host_fixed _ _ H) as Hy.
    unfold domain_host in Hy.
    destruct (forallb label_ok (Js.split (Str.just "."%char) y)) eqn:E;
      [|discriminate].
    apply (all_impl _ _ _ alpha_or_dot_free). now apply labels_alpha_or_dot.
  - intro H. pose proof (opaque_host_fixed _ _ H) as Hy.
    unfold opaque_host in Hy.
    destruct (Str.all (Str.neither forbidden_host) y) eqn:E; [|discriminate].
    now apply (all_impl _ _ _ host_char_free).
Qed.

Lemma valid_scheme_lower (s : string) :
  valid_scheme (Str.map lower s) = valid_scheme s.
Proof.
  unfold valid_scheme. rewrite (all_map _ _ _ lower_scheme_char).
  destruct s as [|c s]; simpl; [reflexivity|]. now rewrite lower_alpha.
Qed.

Lemma parse_authority_sound (b : bool) (auth user host : string) :
  parse_authority b auth = Some (user, host) ->
  Str.all user_char user = true
  /\ parse_host b host = Some host
  /\ (user <> "" -> host <> "").
Proof.
  unfold parse_authority.
  pose proof (break_prefix (Str.just "@"%char) auth) as Hb.
  destruct (Str.break (Str.just "@"%char) auth) as [before from_at].
  simpl in Hb. destruct from_at as [|a hostpart].
  - destruct (parse_host b before) as [y|] eqn:E; [|discriminate].
    intros [= <- <-]. split; [reflexivity|split].
    + now apply (parse_host_fixed _ _ _ E).
    + intro H. now destruct H.
  - destruct (Str.all user_char before) eqn:Hu; [|discriminate].
    destruct (hostpart =? "") eqn:Hh; [discriminate|]. simpl.
    destruct (parse_host b hostpart) as [y|] eqn:E; [|discriminate].
    intros [= <- <-]. split; [exact Hu|split].
    + now apply (parse_host_fixed _ _ _ E).
    + intros _ Hy. subst y. apply String.eqb_neq in Hh.
      destruct b; simpl in E.
      * unfold domain_host in E.
        destruct (forallb label_ok (Js.split (Str.just "."%char) hostpart));
          [|discriminate].
        injection E as E. destruct hostpart; [congruence|discriminate E].
      * unfold opaque_host in E.
        destruct (Str.all (Str.neither forbidden_host) hostpart);
          [|discriminate].
        injection E as E. destruct hostpart as [|c r]; [congruence|].
        simpl in E. destruct (c0_set c); discriminate E.
Qed.

Lemma parse_head_canonical (x : string) (h : Head) :
  parse_head x = Some h -> canonical h.
Proof.
  unfold parse_head.
  destruct (Str.break (Str.just ":"%char) x) as [sch rest].
  destruct rest as [|c0 [|s1 [|s2 after]]]; try discriminate.
  destruct (valid_scheme sch) eqn:Hv; [|discriminate].
  destruct (outside (Str.map lower sch)) eqn:Ho; [discriminate|].
  destruct (Str.just "/"%char s1); [|discriminate].
  destruct (Str.just "/"%char s2); [|discriminate]. simpl.
  pose proof (break_rest Js.is_slash after) as Hr.
  destruct (Str.break Js.is_slash after) as [auth path]. simpl in Hr.
  destruct (Str.all path_char path) eqn:Hp; [|discriminate].
  destruct (parse_authority (special (Str.map lower sch)) auth)
    as [[user host]|] eqn:Ha; [|discriminate].
  apply parse_authority_sound in Ha as (Hu & Hh & Hne).
  intros [= <-]. unfold canonical. simpl.
  rewrite valid_scheme_lower, map_map_lower.
  repeat split; auto.
  - destruct (special (Str.map lower sch) && (path =? "")); auto.
  - destruct (special (Str.map lower sch) && (path =? "")); auto.
  - intro Hs. rewrite Hs. simpl.
    destruct (path =? "") eqn:E; [discriminate|]. now apply String.eqb_neq.
Qed.

Lemma canonical_free (h : Head) :
  canonical h ->
  Str.all (Str.neither reserved) (h_scheme h) = true
  /\ Str.all (Str.neither reserved) (h_user h) = true
  /\ Str.all (Str.neither reserved) (h_host h) = true
  /\ Str.all (Str.neither (fun c => reserved c && negb (Js.is_slash c)))
       (h_path h) = true.
Proof.
  intros (Hv & _ & _ & Hu & Hh & _ & Hp & _).
  unfold valid_scheme in Hv. apply andb_true_iff in Hv as [_ Hv].
  repeat split.
  - now apply (all_impl _ _ _ scheme_char_free).
  - now apply (all_impl _ _ _ user_char_free).
  - now apply (parse_host_free _ _ _ Hh).
  - now apply (all_impl _ _ _ path_char_free).
Qed.

Lemma canonical_reparse (h : Head) :
  canonical h -> parse_head (serialize h) = Some h.
Proof.
  intro Hc. destruct (canonical_free h Hc) as (Fs & Fu & Fh & Fp).
  destruct Hc as (Hv & Hl & Ho & Hu & Hh & Hne & Hp & Hsl & Hsp).
  destruct h as [sch user host path]. simpl in *.
  unfold parse_head, serialize. simpl h_scheme. simpl h_user.
  simpl h_host. simpl h_path.
  rewrite (break_at _ sch) by
    (first [now apply (all_impl _ _ _ free_colon)|now right]).
  simpl. rewrite Hl, Hv, Ho. simpl.
  assert (Hauth : Str.all (Str.neither Js.is_slash)
                    ((if user =? "" then "" else user ++ "@") ++ host) = true).
  { rewrite all_app. apply andb_true_iff. split.
    - destruct (user =? ""); [reflexivity|]. rewrite all_app.
      now rewrite (all_impl _ _ _ free_slash Fu).
    - now apply (all_impl _ _ _ free_slash). }
  rewrite <- append_assoc, (break_at _ _ path Hauth Hsl), Hp.
  assert (Ha : parse_authority (special sch)
                 ((if user =? "" then "" else user ++ "@") ++ host)
               = Some (user, host)).
  { unfold parse_authority. destruct (user =? "") eqn:Eu.
    - apply String.eqb_eq in Eu. subst user. simpl.
      rewrite break_none by now apply (all_impl _ _ _ free_at).
      now rewrite Hh.
    - rewrite append_assoc. simpl.
      rewrite (break_at _ user) by
        (first [now apply (all_impl _ _ _ free_at)|now right]).
      rewrite Hu. apply String.eqb_neq in Eu.
      destruct (host =? "") eqn:Eh.
      + apply String.eqb_eq in Eh. now destruct (Hne Eu).
      + simpl. now rewrite Hh. }
  rewrite Ha. f_equal. f_equal.
  destruct (special sch) eqn:Es; [|reflexivity]. simpl.
  destruct (path =? "") eqn:Ep; [|reflexivity].
  apply String.eqb_eq in Ep. now destruct (Hsp eq_refl).
Qed.

(** Law A for a canonical head. *)
Lemma canonical_no_query_or_hash (h : Head) :
  canonical h -> no_query_or_hash (serialize h) = true.
Proof.
  intro Hc. destruct (canonical_free h Hc) as (Fs & Fu & Fh & Fp).
  unfold no_query_or_hash, serialize. rewrite !all_app.
  assert (W : forall s, Str.all (Str.neither reserved) s = true ->
              Str.all (Str.neither Js.is_query_or_hash) s = true).
  { intros s Hs. apply (all_impl _ _ _ free_query_or_hash).
    now apply (all_impl _ _ _ free_weaker). }
  rewrite (W _ Fs), (W _ Fh), (all_impl _ _ _ free_query_or_hash Fp).
  destruct (h_user h =? ""); [reflexivity|].
  rewrite all_app, (W _ Fu). reflexivity.
Qed.

Lemma canonical_no_tab_or_newline (h : Head) :
  canonical h -> Str.all (Str.neither tab_or_newline) (serialize h) = true.
Proof.
  intro Hc. destruct (canonical_free h Hc) as (Fs & Fu & Fh & Fp).
  unfold serialize. rewrite !all_app.
  assert (W : forall s, Str.all (Str.neither reserved) s = true ->
              Str.all (Str.neither tab_or_newline) s = true).
  { intros s Hs. apply (all_impl _ _ _ free_tab_or_newline).
    now apply (all_impl _ _ _ free_weaker). }
  rewrite (W _ Fs), (W _ Fh), (all_impl _ _ _ free_tab_or_newline Fp).
  destruct (h_user h =? ""); [reflexivity|].
  rewrite all_app, (W _ Fu). reflexivity.
Qed.

Lemma lstrip_kept (s : string) :
  Str.starts_with is_alpha s = true -> lstrip s = s.
Proof.
  destruct s as [|c s]; simpl; [reflexivity|].
  intro H. now rewrite (alpha_not_stripped _ H).
Qed.

Lemma rstrip_app (x y : string) :
  rstrip y <> "" -> rstrip (x ++ y) = x ++ rstrip y.
Proof.
  intro Hy. induction x as [|c x IH]; simpl; [reflexivity|].
  rewrite IH. destruct (x ++ rstrip y) as [|d r] eqn:E; [|reflexivity].
  destruct x; simpl in E; [contradiction|discriminate E].
Qed.

Lemma rstrip_question (q : string) :
  rstrip (String "?" q) = String "?" (rstrip q).
Proof. simpl. now rewrite andb_false_r. Qed.

Lemma remove_app (p : ascii -> bool) (a b : string) :
  Str.remove p (a ++ b) = Str.remove p a ++ Str.remove p b.
Proof.
  induction a as [|c a IH]; simpl; [reflexivity|].
  destruct (p c); simpl; now rewrite IH.
Qed.

Lemma remove_none (p : ascii -> bool) (s : string) :
  Str.all (Str.neither p) s = true -> Str.remove p s = s.
Proof.
  induction s as [|c s IH]; simpl; [reflexivity|].
  rewrite andb_true_iff. unfold Str.neither at 1. rewrite negb_true_iff.
  intros [Hc Hs]. now rewrite Hc, (IH Hs).
Qed.

Lemma serialize_starts_alpha (h : Head) :
  canonical h -> Str.starts_with is_alpha (serialize h) = true.
Proof.
  intros (Hv & _). unfold valid_scheme in Hv.
  apply andb_true_iff in Hv as [Hv _]. unfold serialize.
  destruct (h_scheme h); [discriminate Hv|exact Hv].
Qed.

(** The first steps of the parser leave a serialized head followed by a
    query where they are. *)
Lemma preprocess_serialized (h : Head) (q : string) :
  canonical h ->
  exists q', preprocess (serialize h ++ "?" ++ q)
             = serialize h ++ String "?" q'.
Proof.
  intro Hc. exists (Str.remove tab_or_newline (rstrip q)). unfold preprocess.
  rewrite lstrip_kept.
  - change ("?" ++ q) with (String "?" q).
    rewrite rstrip_app by (rewrite rstrip_question; discriminate).
    rewrite rstrip_question, remove_app.
    now rewrite (remove_none _ _ (canonical_no_tab_or_newline h Hc)).
  - pose proof (serialize_starts_alpha h Hc) as H.
    destruct (serialize h); [discriminate H|exact H].
Qed.

Lemma parse_base (u : string) (o : URL) :
  parse u = Some o -> exists h, canonical h /\ url_base o = serialize h.
Proof.
  unfold parse.
  destruct (Str.break Js.is_query_or_hash (preprocess u)) as [head rest].
  destruct (parse_head head) as [h|] eqn:E; [|discriminate].
  exists h. split; [now apply (parse_head_canonical head)|].
  destruct (Str.starts_with (Str.just "?"%char) rest);
    [destruct (Str.break (Str.just "#"%char) (Str.tail rest))|];
    injection H as <-; reflexivity.
Qed.

Lemma parse_serialized (h : Head) (q : string) :
  canonical h ->
  exists o, parse (serialize h ++ "?" ++ q) = Some o
            /\ url_base o = serialize h.
Proof.
  intro Hc. destruct (preprocess_serialized h q Hc) as [q' Hq].
  unfold parse. rewrite Hq.
  rewrite (break_at _ (serialize h) (String "?" q'));
    [|now apply canonical_no_query_or_hash|now right].
  rewrite (canonical_reparse h Hc).
  change (Str.starts_with (Str.just "?"%char) (String "?" q')) with true.
  cbv iota. destruct (Str.break (Str.just "#"%char) (Str.tail (String "?" q'))).
  eexists. split; reflexivity.
Qed.

End WhatwgFacts.

(** [Whatwg.parse] meets the laws, whatever the JSON payloads. *)
Lemma whatwg_laws (catalog : option (list Story)) (lang : option Lang) :
  UrlLaws (page_platform catalog lang).
Proof.
  split; simpl.
  - intros u o H. destruct (WhatwgFacts.parse_base u o H) as (h & Hc & ->).
    now apply WhatwgFacts.canonical_no_query_or_hash.
  - intros u o q H. destruct (WhatwgFacts.parse_base u o H) as (h & Hc & ->).
    now apply WhatwgFacts.parse_serialized.
Qed.

(* ===================================================================== *)
(** ** The handlers *)
(* ===================================================================== *)

(** Unfolds the statements of the script down to the fields of the state,
    leaving the string functions folded.  [script_top] also leaves the two
    update functions folded, to be rewritten by their equations. *)
Ltac script_top :=
  lazy beta iota zeta delta
    [handlePanelOpen handleStoryChange handlePresetChange
     populateStorySelectors loadAvailableStories copyToClipboard
     copy_failed showSuccessFeedback copyShareLink copySiteLink
     copyEmbedCode init dispatch on_click run outcome bind ret throw
     gets modify try_catch when_present deref emit forEach get_select
     set_select get_button set_button sibling widget_value
     currentStoryUrl availableStories sharePanel shareUrlInput
     shareCopyLinkBtn shareSiteUrlInput shareCopySiteBtn
     shareStorySelect embedPresetSelect embedWidthInput
     embedHeightInput embedCodeTextarea embedCopyCodeBtn
     embedStorySelect successMessages effects set_currentStoryUrl
     set_availableStories set_shareUrlInput set_shareCopyLinkBtn
     set_shareSiteUrlInput set_shareCopySiteBtn set_shareStorySelect
     set_embedPresetSelect set_embedWidthInput set_embedHeightInput
     set_embedCodeTextarea set_embedCopyCodeBtn set_embedStorySelect
     set_successMessages set_effects set_disabled set_icon
     btn_disabled btn_tab_pane btn_icon target target_value fst snd
     negb Js.truthy String.eqb Nat.eqb length cleared blank off
     same_controller disabled_flag option_map].

Ltac script :=
  lazy beta iota zeta delta
    [handlePanelOpen handleStoryChange handlePresetChange
     populateStorySelectors loadAvailableStories copyToClipboard
     copy_failed showSuccessFeedback copyShareLink copySiteLink
     copyEmbedCode init dispatch on_click updateShareUrl
     updateEmbedCode generateEmbedCode run outcome bind ret throw gets
     modify try_catch when_present deref emit forEach get_select
     set_select get_button set_button sibling widget_value
     currentStoryUrl availableStories sharePanel shareUrlInput
     shareCopyLinkBtn shareSiteUrlInput shareCopySiteBtn
     shareStorySelect embedPresetSelect embedWidthInput
     embedHeightInput embedCodeTextarea embedCopyCodeBtn
     embedStorySelect successMessages effects set_currentStoryUrl
     set_availableStories set_shareUrlInput set_shareCopyLinkBtn
     set_shareSiteUrlInput set_shareCopySiteBtn set_shareStorySelect
     set_embedPresetSelect set_embedWidthInput set_embedHeightInput
     set_embedCodeTextarea set_embedCopyCodeBtn set_embedStorySelect
     set_successMessages set_effects set_disabled set_icon
     btn_disabled btn_tab_pane btn_icon target target_value fst snd
     negb Js.truthy String.eqb Nat.eqb length cleared blank off
     same_controller disabled_flag option_map].

(** Unfolds [dispatch] down to the call of a handler. *)
Ltac script_events :=
  lazy beta iota zeta delta
    [copyShareLink copySiteLink copyEmbedCode dispatch on_click run
     outcome bind ret throw gets modify try_catch when_present deref
     emit forEach get_select set_select get_button set_button sibling
     widget_value currentStoryUrl availableStories sharePanel
     shareUrlInput shareCopyLinkBtn shareSiteUrlInput shareCopySiteBtn
     shareStorySelect embedPresetSelect embedWidthInput
     embedHeightInput embedCodeTextarea embedCopyCodeBtn
     embedStorySelect successMessages effects set_currentStoryUrl
     set_availableStories set_shareUrlInput set_shareCopyLinkBtn
     set_shareSiteUrlInput set_shareCopySiteBtn set_shareStorySelect
     set_embedPresetSelect set_embedWidthInput set_embedHeightInput
     set_embedCodeTextarea set_embedCopyCodeBtn set_embedStorySelect
     set_successMessages set_effects set_disabled set_icon
     btn_disabled btn_tab_pane btn_icon target target_value fst snd
     negb Nat.eqb length cleared blank off same_controller
     disabled_flag option_map].

(** Case analysis on whatever the unfolded script still tests. *)
Ltac cases :=
  repeat (match goal with
          | |- context [match ?x with Some _ => _ | None => _ end] =>
              destruct x eqn:?
          | |- context [if ?b then _ else _] => destruct b eqn:?
          end; lazy beta iota).

Ltac leaf :=
  repeat match goal with
         | |- _ /\ _ => split
         | |- forall _, _ => intro
         | H : Some _ = Some _ |- _ => injection H as H; try subst
         | H : _ /\ _ |- _ => destruct H
         | H : forall x, Some ?b = Some x -> _ |- _ => specialize (H b eq_refl)
         end;
  script; try reflexivity; try congruence; try discriminate; auto;
  try match goal with
      | H : forall x, ?f = Some x -> _, H0 : ?f = Some ?y |- _ =>
          exact (H y H0)
      end.

Section Controller.

Context (P : Platform) (pg : Page).

(** *** [generateEmbedCode], [updateEmbedCode], [updateShareUrl] *)

Lemma generateEmbedCode_empty (s : State) :
  currentStoryUrl s = "" -> generateEmbedCode P pg s = (Ok "", s).
Proof. intro H. script. unfold currentStoryUrl in H. now rewrite H. Qed.

Lemma generateEmbedCode_state (s : State) :
  snd (generateEmbedCode P pg s) = s.
Proof.
  destruct s as [cur av pan sui scl ssu scs sss eps ewi ehi ect ecc ess sm ef].
  script. destruct cur, ewi, ehi; reflexivity.
Qed.

Lemma updateEmbedCode_run (s : State) :
  updateEmbedCode P pg s
  = (embed_outcome P pg s,
     set_embedCodeTextarea (embed_code_shown P pg s) s).
Proof.
  unfold updateEmbedCode, embed_outcome, embed_code_shown, when_present, bind,
    modify.
  pose proof (generateEmbedCode_state s) as Hs.
  destruct (generateEmbedCode P pg s) as [[code|e] s']; simpl in Hs; subst s';
    destruct s as [cur av pan sui scl ssu scs sss eps ewi ehi ect ecc ess sm ef];
    destruct ect; reflexivity.
Qed.

Lemma updateShareUrl_run (s : State) :
  updateShareUrl P pg s
  = (Ok tt,
     set_shareUrlInput
       (option_map (fun _ => share_url P (currentStoryUrl s))
                   (shareUrlInput s))
       (set_shareSiteUrlInput
          (option_map (fun _ => site_url pg) (shareSiteUrlInput s)) s)).
Proof.
  destruct s as [cur av pan sui scl ssu scs sss eps ewi ehi ect ecc ess sm ef].
  unfold share_url, site_url.
  destruct ssu, sui; script; try reflexivity;
    destruct cur; try reflexivity;
    match goal with
    | |- context [new_URL P ?u] => destruct (new_URL P u); reflexivity
    end.
Qed.

Lemma embed_code_shown_empty (s : State) :
  currentStoryUrl s = "" ->
  embed_code_shown P pg s = option_map (fun _ => "") (embedCodeTextarea s)
  /\ embed_outcome P pg s = Ok tt.
Proof.
  intro H. unfold embed_code_shown, embed_outcome.
  rewrite (generateEmbedCode_empty s H). now destruct (embedCodeTextarea s).
Qed.

Lemma share_url_empty : share_url P "" = "".
Proof. reflexivity. Qed.

(** Rewrites the two update functions by their equations. *)
Ltac updates :=
  script_top; rewrite ?updateShareUrl_run; lazy beta iota;
  rewrite ?updateEmbedCode_run; script_top.

(** *** [updateEmbedCode] and the invariant *)

Lemma updateEmbedCode_invariant (s : State) :
  currentStoryUrl (run (updateEmbedCode P pg) s) = currentStoryUrl s
  /\ (selection_invariant s ->
      selection_invariant (run (updateEmbedCode P pg) s)).
Proof.
  unfold run. rewrite updateEmbedCode_run. split; [reflexivity|].
  unfold selection_invariant. intros Hinv Hc. change (currentStoryUrl s = "") in Hc.
  destruct (embed_code_shown_empty s Hc) as [Hshown _].
  destruct (Hinv Hc) as (H1 & H2 & H3 & H4). unfold cleared. simpl snd.
  rewrite Hshown.
  destruct s as [cur av pan sui scl ssu scs sss eps ewi ehi ect ecc ess sm ef].
  simpl in *. repeat split; auto. destruct ect; intros v [= <-]; reflexivity.
Qed.

(** *** [handlePanelOpen] *)

Lemma handlePanelOpen_catalog (s : State) :
  shareStorySelect s <> None ->
  outcome (handlePanelOpen P pg) s = Ok tt
  /\ currentStoryUrl (run (handlePanelOpen P pg) s) = ""
  /\ cleared (run (handlePanelOpen P pg) s).
Proof.
  destruct s as [cur av pan sui scl ssu scs sss eps ewi ehi ect ecc ess sm ef].
  intro H. simpl in H. destruct sss as [sel|]; [clear H|congruence].
  destruct ess, sui, scl, ect, ecc, ssu; script; leaf.
Qed.

Lemma handlePanelOpen_single_story (s : State) :
  shareStorySelect s = None ->
  let s' := run (handlePanelOpen P pg) s in
  currentStoryUrl s' = location_href pg
  /\ shareCopyLinkBtn s' = shareCopyLinkBtn s
  /\ shareCopySiteBtn s' = shareCopySiteBtn s
  /\ embedCopyCodeBtn s' = embedCopyCodeBtn s
  /\ shareStorySelect s' = None
  /\ embedStorySelect s' = embedStorySelect s
  /\ shareUrlInput s'
     = option_map (fun _ => share_url P (location_href pg)) (shareUrlInput s).
Proof.
  destruct s as [cur av pan sui scl ssu scs sss eps ewi ehi ect ecc ess sm ef].
  intro H. simpl in H. subst sss. updates. leaf.
Qed.

(** *** [handleStoryChange] *)

Lemma handleStoryChange_placeholder (s : State) (w : Widget) :
  outcome (handleStoryChange P pg {| target := w; target_value := "" |}) s
  = Ok tt
  /\ currentStoryUrl
       (run (handleStoryChange P pg {| target := w; target_value := "" |}) s)
     = ""
  /\ cleared
       (run (handleStoryChange P pg {| target := w; target_value := "" |}) s).
Proof.
  destruct s as [cur av pan sui scl ssu scs sss eps ewi ehi ect ecc ess sm ef].
  destruct w, sss, ess, sui, scl, ect, ecc, ssu; script; leaf.
Qed.

Lemma handleStoryChange_effect (s : State) (event : ChangeEvent) :
  let s' := run (handleStoryChange P pg event) s in
  let v := target_value event in
  currentStoryUrl s' = v
  /\ get_select (target event) s' = get_select (target event) s
  /\ get_select (sibling (target event)) s'
     = option_map (Dom.select_set_value v)
                  (get_select (sibling (target event)) s)
  /\ disabled_flag (shareCopyLinkBtn s')
     = option_map (fun _ => v =? "") (shareCopyLinkBtn s)
  /\ disabled_flag (embedCopyCodeBtn s')
     = option_map (fun _ => v =? "") (embedCopyCodeBtn s)
  /\ shareUrlInput s' = option_map (fun _ => share_url P v) (shareUrlInput s).
Proof.
  destruct s as [cur av pan sui scl ssu scs sss eps ewi ehi ect ecc ess sm ef].
  destruct event as [w v].
  destruct w, sss, ess, scl, ecc, v; updates; repeat split; reflexivity.
Qed.

(** *** [handlePresetChange] *)

Lemma handlePresetChange_invariant (preset : string) (s : State) :
  currentStoryUrl (run (handlePresetChange P pg preset) s) = currentStoryUrl s
  /\ (selection_invariant s ->
      selection_invariant (run (handlePresetChange P pg preset) s)).
Proof.
  unfold handlePresetChange.
  assert (G : forall x y,
             currentStoryUrl
               (run (_ <- deref "embedWidthInput" embedWidthInput ;;
                     modify (set_embedWidthInput (Some x)) ;;
                     _ <- deref "embedHeightInput" embedHeightInput ;;
                     modify (set_embedHeightInput (Some y)) ;;
                     updateEmbedCode P pg) s) = currentStoryUrl s
             /\ (selection_invariant s ->
                 selection_invariant
                   (run (_ <- deref "embedWidthInput" embedWidthInput ;;
                         modify (set_embedWidthInput (Some x)) ;;
                         _ <- deref "embedHeightInput" embedHeightInput ;;
                         modify (set_embedHeightInput (Some y)) ;;
                         updateEmbedCode P pg) s))).
  { intros x y.
    destruct s as [cur av pan sui scl ssu scs sss eps ewi ehi ect ecc ess sm ef].
    destruct ewi as [w|]; [|split; [reflexivity|exact (fun H => H)]].
    destruct ehi as [h|]; [|split; [reflexivity|exact (fun H => H)]].
    script_top.
    match goal with
    | |- context [updateEmbedCode P pg ?S] =>
        destruct (updateEmbedCode_invariant S) as [H1 H2]
    end.
    split; [exact H1|]. intro Hinv. apply H2. exact Hinv. }
  destruct (presets_get preset); [apply G|apply G|].
  split; [reflexivity|exact (fun H => H)].
Qed.

(** *** [copyToClipboard] *)

Ltac copy_cases text :=
  destruct text; script;
  try match goal with
      | |- context [has_message ?t ?m] => destruct (has_message t m)
      end;
  script.

Lemma copyToClipboard_same (text : string) (b : ButtonId)
    (o : ClipboardOutcome) (s : State) :
  same_controller s (run (copyToClipboard text b o) s).
Proof.
  destruct s as [cur av pan sui scl ssu scs sss eps ewi ehi ect ecc ess sm ef].
  destruct o; destruct b;
    [ | | | destruct scl as [[d [t|] [icon|]]|]
          | destruct scs as [[d [t|] [icon|]]|]
          | destruct ecc as [[d [t|] [icon|]]|] | | | ];
    copy_cases text; repeat split; reflexivity.
Qed.

Lemma copyToClipboard_settled (text : string) (b : ButtonId)
    (o : ClipboardOutcome) (s : State) :
  o <> Unavailable -> outcome (copyToClipboard text b o) s = Ok tt.
Proof.
  destruct s as [cur av pan sui scl ssu scs sss eps ewi ehi ect ecc ess sm ef].
  intro Ho. destruct o; [congruence| |]; destruct b;
    [ destruct scl as [[d [t|] [icon|]]|]
    | destruct scs as [[d [t|] [icon|]]|]
    | destruct ecc as [[d [t|] [icon|]]|] | | | ];
    copy_cases text; reflexivity.
Qed.

Lemma same_controller_invariant (s s' : State) :
  same_controller s s' -> selection_invariant s -> selection_invariant s'.
Proof.
  unfold same_controller, selection_invariant, cleared, blank, off,
    disabled_flag.
  intros (Hc & _ & _ & _ & Hu & _ & Ht & _ & _ & _ & Hl & _ & He) Hinv H.
  rewrite Hc in H. destruct (Hinv H) as (H1 & H2 & H3 & H4).
  rewrite Hu, Ht. repeat split; auto.
  - intros x Hx. rewrite Hx in Hl.
    destruct (shareCopyLinkBtn s) as [y|]; [|discriminate Hl].
    injection Hl as ->. now apply H3.
  - intros x Hx. rewrite Hx in He.
    destruct (embedCopyCodeBtn s) as [y|]; [|discriminate He].
    injection He as ->. now apply H4.
Qed.

(** *** Events *)

Ltac unchanged H :=
  match goal with
  | |- selection_invariant (Build_State _ _ _ _ _ _ _ _ _ _ _ _ _ _ _ _) =>
      exact H
  end.

Lemma dispatch_invariant (ev : Event) (s : State) :
  location_href pg <> "" ->
  selection_invariant s -> selection_invariant (run (dispatch P pg ev) s).
Proof.
  intros Hhref Hinv.
  destruct s as [cur av pan sui scl ssu scs sss eps ewi ehi ect ecc ess sm ef].
  destruct pan; [|exact Hinv].
  destruct ev as [|b o|i|v|v|w i]; script_events.
  - destruct sss as [sel|];
      match goal with
      | |- context [handlePanelOpen P pg ?S] =>
          first
            [ intros _;
              exact (proj2 (proj2 (handlePanelOpen_catalog S
                                     ltac:(discriminate))))
            | intro H;
              change (currentStoryUrl (run (handlePanelOpen P pg) S) = "")
                in H;
              rewrite (proj1 (handlePanelOpen_single_story S eq_refl)) in H;
              contradiction ]
      end.
  - destruct b; cases; first
      [ unchanged Hinv
      | match goal with
        | |- context [copyToClipboard ?t ?b ?o ?S] =>
            exact (same_controller_invariant S _
                     (copyToClipboard_same t b o S) Hinv)
        end ].
  - cases; first
      [ unchanged Hinv
      | match goal with
        | |- context [handlePresetChange P pg ?k ?S] =>
            exact (proj2 (handlePresetChange_invariant k S) Hinv)
        end ].
  - cases; first
      [ unchanged Hinv
      | match goal with
        | |- context [updateEmbedCode P pg ?S] =>
            exact (proj2 (updateEmbedCode_invariant S) Hinv)
        end ].
  - cases; first
      [ unchanged Hinv
      | match goal with
        | |- context [updateEmbedCode P pg ?S] =>
            exact (proj2 (updateEmbedCode_invariant S) Hinv)
        end ].
  - destruct w; cases; first
      [ unchanged Hinv
      | match goal with
        | |- context [handleStoryChange P pg ?e ?S] =>
            destruct (String.eqb_spec (target_value e) "") as [E|E];
            [ simpl in E; rewrite E; intros _;
              exact (proj2 (proj2
                       (handleStoryChange_placeholder S (target e))))
            | intro H;
              change (currentStoryUrl (run (handleStoryChange P pg e) S) = "")
                in H;
              rewrite (proj1 (handleStoryChange_effect S e)) in H;
              contradiction ]
        end ].
Qed.

Lemma init_keeps_selection (s : State) :
  currentStoryUrl (run (init P pg) s) = currentStoryUrl s.
Proof.
  destruct s as [cur av pan sui scl ssu scs sss eps ewi ehi ect ecc ess sm ef].
  destruct pan; [|reflexivity]. script.
  destruct (telar_stories_data pg) as [text|]; [|reflexivity].
  destruct (JSON_parse_stories P text) as [[|story rest]|];
    try reflexivity.
  destruct sss, ess; reflexivity.
Qed.

Lemma reachable_invariant (s : State) :
  location_href pg <> "" -> reachable P pg s -> selection_invariant s.
Proof.
  intros Hhref Hr. induction Hr as [s [Hu _]|s ev _ IH].
  - intro H. rewrite init_keeps_selection, Hu in H. contradiction.
  - now apply dispatch_invariant.
Qed.

(** C1. With an empty selection [generateEmbedCode] returns the empty
    string; opening the panel on a page with the share selector, and
    selecting the placeholder in either selector, leave the selection empty,
    both derived fields blank and both copy buttons disabled, without an
    exception; and in every state the script can reach, an empty selection
    comes with blank derived fields and disabled copy buttons. *)
Theorem empty_selection_blank_and_disabled :
  (forall s, currentStoryUrl s = "" ->
             outcome (generateEmbedCode P pg) s = Ok "")
  /\ (forall s, shareStorySelect s <> None ->
                outcome (handlePanelOpen P pg) s = Ok tt
                /\ currentStoryUrl (run (handlePanelOpen P pg) s) = ""
                /\ cleared (run (handlePanelOpen P pg) s))
  /\ (forall s w,
        outcome (handleStoryChange P pg {| target := w; target_value := "" |})
                s = Ok tt
        /\ currentStoryUrl
             (run (handleStoryChange P pg
                     {| target := w; target_value := "" |}) s) = ""
        /\ cleared
             (run (handleStoryChange P pg
                     {| target := w; target_value := "" |}) s))
  /\ (location_href pg <> "" ->
      forall s, reachable P pg s -> currentStoryUrl s = "" ->
                cleared s /\ outcome (generateEmbedCode P pg) s = Ok "").
Proof.
  split; [|split; [|split]].
  - intros s H. unfold outcome. now rewrite generateEmbedCode_empty.
  - apply handlePanelOpen_catalog.
  - intros s w. apply handleStoryChange_placeholder.
  - intros Hhref s Hr H. split.
    + now apply (reachable_invariant s Hhref Hr).
    + unfold outcome. now rewrite generateEmbedCode_empty.
Qed.

(** *** [handlePresetChange] and the preset table *)

Lemma handlePresetChange_found (key : string) (s : State) (w h : string) :
  presets_get key <> Undefined ->
  embedWidthInput s = Some w -> embedHeightInput s = Some h ->
  let chosen :=
    set_embedHeightInput (Some (member_as_value height (presets_get key)))
      (set_embedWidthInput (Some (member_as_value width (presets_get key)))
         s) in
  handlePresetChange P pg key s = updateEmbedCode P pg chosen.
Proof.
  intros Hk Hw Hh. unfold handlePresetChange.
  destruct s as [cur av pan sui scl ssu scs sss eps ewi ehi ect ecc ess sm ef].
  simpl in Hw, Hh. subst ewi ehi.
  destruct (presets_get key); [reflexivity|reflexivity|congruence].
Qed.

Lemma handlePresetChange_unknown (key : string) (s : State) :
  presets_get key = Undefined -> handlePresetChange P pg key s = (Ok tt, s).
Proof. intro H. unfold handlePresetChange. now rewrite H. Qed.

(** Outside what the preset selector offers.  Called with a key that
    names a member inherited from [Object.prototype], here [constructor],
    the handler would pass its guard and both fields would receive the text
    [undefined]; the selector of the panel has no option of such a name. *)
Theorem handlePresetChange_inherited_key (s : State) (w h : string) :
  embedWidthInput s = Some w -> embedHeightInput s = Some h ->
  embedWidthInput (run (handlePresetChange P pg "constructor") s)
  = Some "undefined"
  /\ embedHeightInput (run (handlePresetChange P pg "constructor") s)
     = Some "undefined".
Proof.
  intros Hw Hh. unfold run.
  rewrite (handlePresetChange_found "constructor" s w h);
    [|discriminate|assumption|assumption].
  rewrite updateEmbedCode_run. split; reflexivity.
Qed.

(** *** [getStoryTitle] *)

Lemma selected_label_spec (sel : option Select) :
  selected_label sel = label_of_selection sel.
Proof.
  destruct sel as [[opts [i|]]|]; try reflexivity.
  unfold selected_label, label_of_selection, Dom.select_value,
    Dom.selected_option. simpl.
  destruct (nth_error opts i) as [o|]; [|reflexivity].
  unfold Js.truthy. now destruct (opt_value o =? "").
Qed.

Lemma find_catalog_title (url : string) (catalog : list Story) :
  option_map story_title
    (find (fun story => story_url story =? url) catalog)
  = catalog_title url catalog.
Proof.
  induction catalog as [|story rest IH]; simpl; [reflexivity|].
  now destruct (story_url story =? url).
Qed.

(** C7. For a selection that is not empty, as at the one call of
    [getStoryTitle], the title is resolved by the priority (a) label of the
    option selected in the share selector, then in the embed selector, for
    a selection that is not empty; (b) first catalog entry with the current
    URL; (c) [og:title]; (d) document title; (e) the literal. *)
Theorem getStoryTitle_by_priority (s : State) :
  currentStoryUrl s <> "" -> getStoryTitle pg s = title_by_priority pg s.
Proof.
  intro H. unfold getStoryTitle, title_by_priority.
  rewrite !selected_label_spec.
  destruct (label_of_selection (shareStorySelect s)); [reflexivity|].
  destruct (label_of_selection (embedStorySelect s)); [reflexivity|].
  rewrite <- find_catalog_title.
  apply String.eqb_neq in H. unfold Js.truthy at 1. rewrite H. simpl.
  destruct (availableStories s) as [|story rest]; simpl.
  - unfold Js.or_else, Js.truthy. now destruct (document_title pg =? "").
  - destruct (if story_url story =? currentStoryUrl s then Some story
              else find (fun story0 => story_url story0 =? currentStoryUrl s)
                     rest); simpl; [reflexivity|].
    unfold Js.or_else, Js.truthy. now destruct (document_title pg =? "").
Qed.

(** *** The catalog and the selectors *)

Lemma populateStorySelectors_empty (s : State) :
  availableStories s = [] -> populateStorySelectors P pg s = (Ok tt, s).
Proof. intro H. unfold populateStorySelectors, bind, gets. now rewrite H. Qed.

(** C9. With a catalog of no entries the options of both selectors stay as
    they are: [populateStorySelectors] returns at once on an empty catalog,
    [loadAvailableStories] therefore leaves the selectors alone when the
    payload is the empty array, and when parsing throws it does not reach
    [populateStorySelectors] and only logs a warning. *)
Theorem empty_catalog_leaves_selectors (s : State) :
  (availableStories s = [] -> populateStorySelectors P pg s = (Ok tt, s))
  /\ (forall text,
        telar_stories_data pg = Some text ->
        JSON_parse_stories P text = Some [] ->
        loadAvailableStories P pg s = (Ok tt, set_availableStories [] s))
  /\ (forall text,
        telar_stories_data pg = Some text ->
        JSON_parse_stories P text = None ->
        loadAvailableStories P pg s
        = (Ok tt,
           set_effects
             (effects s
              ++ [ConsoleWarn "[Telar Share] Could not parse stories data"])
             s)).
Proof.
  split; [apply populateStorySelectors_empty|split].
  - intros text Hd Hp. unfold loadAvailableStories. rewrite Hd, Hp.
    reflexivity.
  - intros text Hd Hp. unfold loadAvailableStories. rewrite Hd, Hp.
    reflexivity.
Qed.

(** C10. [handlePanelOpen] chooses its branch by the share selector alone:
    without it, whether or not the embed selector exists, the selection
    becomes the URL of the page and the copy buttons and the embed selector
    are left as they are; with it, the selection is emptied and the derived
    fields and copy buttons are cleared. *)
Theorem handlePanelOpen_branch_by_share_selector (s : State) :
  (shareStorySelect s = None ->
   currentStoryUrl (run (handlePanelOpen P pg) s) = location_href pg
   /\ shareCopyLinkBtn (run (handlePanelOpen P pg) s) = shareCopyLinkBtn s
   /\ embedCopyCodeBtn (run (handlePanelOpen P pg) s) = embedCopyCodeBtn s
   /\ embedStorySelect (run (handlePanelOpen P pg) s) = embedStorySelect s)
  /\ (shareStorySelect s <> None ->
      currentStoryUrl (run (handlePanelOpen P pg) s) = ""
      /\ cleared (run (handlePanelOpen P pg) s)).
Proof.
  split; intro H.
  - destruct (handlePanelOpen_single_story s H)
      as (H1 & H2 & _ & H4 & _ & H6 & _).
    now repeat split.
  - now destruct (handlePanelOpen_catalog s H) as (_ & H1 & H2).
Qed.

End Controller.

(** *** [copyToClipboard] *)

(** C8. When the clipboard write is rejected, [copyToClipboard] ends
    without an exception, logs the error, and shows the manual-copy notice
    exactly when the text is not empty; whether the write is rejected or
    resolves, the selection, the catalog, the dimensions, the derived
    fields, the selectors and the disabled flags stay as they were. *)
Theorem copyToClipboard_rejected (text : string) (b : ButtonId)
    (err : string) (s : State) :
  outcome (copyToClipboard text b (Rejects err)) s = Ok tt
  /\ effects (run (copyToClipboard text b (Rejects err)) s)
     = (effects s
        ++ ConsoleError "[Telar Share] Failed to copy:" err
           :: (if text =? "" then []
               else [Alert "Please manually copy the text"]))%list
  /\ same_controller s (run (copyToClipboard text b (Rejects err)) s)
  /\ outcome (copyToClipboard text b Resolves) s = Ok tt
  /\ same_controller s (run (copyToClipboard text b Resolves) s).
Proof.
  split; [apply copyToClipboard_settled; discriminate|].
  split; [|split; [apply copyToClipboard_same|split;
            [apply copyToClipboard_settled; discriminate
            |apply copyToClipboard_same]]].
  destruct s as [cur av pan sui scl ssu scs sss eps ewi ehi ect ecc ess sm ef].
  destruct text; script; [reflexivity|].
  now rewrite <- app_assoc.
Qed.

(* ===================================================================== *)
(** ** The two story selectors *)
(* ===================================================================== *)

Lemma index_of_offered (v : string) (l : list OptionEl) :
  (exists o, In o l /\ opt_value o = v) ->
  exists j o, Dom.index_of v l = Some j /\ nth_error l j = Some o
              /\ opt_value o = v.
Proof.
  induction l as [|a l IH]; intros (o & Hin & Hv); [destruct Hin|].
  simpl. destruct (opt_value a =? v) eqn:E.
  - exists 0, a. apply String.eqb_eq in E. now repeat split.
  - destruct Hin as [->|Hin].
    + apply String.eqb_neq in E. contradiction.
    + destruct (IH (ex_intro _ o (conj Hin Hv))) as (j & o' & Hj & Hn & Ho).
      exists (S j), o'. rewrite Hj. now repeat split.
Qed.

Lemma index_of_missing (v : string) (l : list OptionEl) :
  ~ (exists o, In o l /\ opt_value o = v) -> Dom.index_of v l = None.
Proof.
  induction l as [|a l IH]; intro H; [reflexivity|]. simpl.
  destruct (opt_value a =? v) eqn:E.
  - apply String.eqb_eq in E. destruct H. exists a. split; [now left|exact E].
  - rewrite IH; [reflexivity|]. intros (o & Hin & Hv). apply H.
    exists o. split; [now right|exact Hv].
Qed.

Lemma select_set_value_offered (v : string) (sel : Select) :
  offers v sel -> Dom.select_value (Dom.select_set_value v sel) = v.
Proof.
  intro H. destruct (index_of_offered v (options sel) H) as (j & o & Hj & Hn & Ho).
  unfold Dom.select_value, Dom.selected_option, Dom.select_set_value. simpl.
  now rewrite Hj, Hn.
Qed.

Lemma select_set_value_missing (v : string) (sel : Select) :
  ~ offers v sel -> Dom.select_value (Dom.select_set_value v sel) = "".
Proof.
  intro H. unfold Dom.select_value, Dom.selected_option, Dom.select_set_value.
  simpl. now rewrite (index_of_missing v (options sel) H).
Qed.

Section Selectors.

Context (P : Platform) (pg : Page).

(** What a [change] event of a selector comes to. *)
Lemma dispatch_ChangeStory (s : State) (w : Widget) (i : nat) (sel : Select)
    (picked : OptionEl) :
  sharePanel s = true ->
  get_select w s = Some sel ->
  nth_error (options sel) i = Some picked ->
  dispatch P pg (ChangeStory w i) s
  = handleStoryChange P pg {| target := w; target_value := opt_value picked |}
      (set_select w (Some (Dom.select_pick i sel)) s).
Proof.
  destruct s as [cur av pan sui scl ssu scs sss eps ewi ehi ect ecc ess sm ef].
  intros Hp Hs Hn. simpl in Hp. subst pan.
  destruct w; simpl in Hs; subst; script_events; now rewrite Hn.
Qed.

(** What the assignment [sibling.value = selectedValue] comes to, whatever
    the two selectors list: after a selection in one selector that selector
    holds the selected value; the other selector holds the same value when
    it offers an option of that value, and otherwise is left with no
    selected option, its value the empty string. *)
Theorem story_selection_synchronized (s : State) (w : Widget) (i : nat)
    (sel sib : Select) (picked : OptionEl) :
  sharePanel s = true ->
  get_select w s = Some sel ->
  nth_error (options sel) i = Some picked ->
  get_select (sibling w) s = Some sib ->
  widget_value w (run (dispatch P pg (ChangeStory w i)) s)
  = Some (opt_value picked)
  /\ (offers (opt_value picked) sib ->
      widget_value (sibling w) (run (dispatch P pg (ChangeStory w i)) s)
      = Some (opt_value picked))
  /\ (~ offers (opt_value picked) sib ->
      widget_value (sibling w) (run (dispatch P pg (ChangeStory w i)) s)
      = Some "").
Proof.
  intros Hp Hs Hn Hb. unfold run.
  rewrite (dispatch_ChangeStory s w i sel picked Hp Hs Hn).
  destruct (handleStoryChange_effect P pg
              (set_select w (Some (Dom.select_pick i sel)) s)
              {| target := w; target_value := opt_value picked |})
    as (_ & Ht & Hsib & _).
  unfold run in Ht, Hsib. simpl target in Ht, Hsib.
  simpl target_value in Hsib. unfold widget_value. rewrite Ht, Hsib.
  assert (Hw : get_select w (set_select w (Some (Dom.select_pick i sel)) s)
               = Some (Dom.select_pick i sel)) by now destruct w.
  assert (Hw' : get_select (sibling w)
                  (set_select w (Some (Dom.select_pick i sel)) s)
                = Some sib) by (rewrite <- Hb; now destruct w).
  rewrite Hw, Hw'. simpl. split; [|split].
  - unfold Dom.select_value, Dom.selected_option. simpl. now rewrite Hn.
  - intro H. now rewrite select_set_value_offered.
  - intro H. now rewrite select_set_value_missing.
Qed.

End Selectors.

(* ===================================================================== *)
(** ** The properties at work *)
(* ===================================================================== *)

Lemma addEmbedParameter_one_embed_no_fragment_at_story_page :
  fragment_of (addEmbedParameter browser "https://x/story?foo=1#bar") = None
  /\ embed_parameters (addEmbedParameter browser "https://x/story?foo=1#bar")
     = [("embed", "true")].
Proof.
  exact (addEmbedParameter_one_embed_no_fragment browser
           (whatwg_laws _ _) "https://x/story?foo=1#bar").
Defined.

Lemma addEmbedParameter_idempotent_at_story_page :
  (new_URL browser "https://x/story?foo=1#bar" <> None
   \/ new_URL browser (addEmbedParameter browser "https://x/story?foo=1#bar")
      = None)
  /\ addEmbedParameter browser
       (addEmbedParameter browser "https://x/story?foo=1#bar")
     = addEmbedParameter browser "https://x/story?foo=1#bar".
Proof.
  assert (H : new_URL browser "https://x/story?foo=1#bar" <> None)
    by (vm_compute; discriminate).
  split; [now left|].
  exact (addEmbedParameter_idempotent_when_settled browser
           (whatwg_laws _ _) "https://x/story?foo=1#bar" (or_introl H)).
Defined.

(** C3, as stated, fails: [a://@] followed by the control character U+0001
    is rejected by the parser, which strips the trailing control character
    and finds a credentials separator with no host after it; the fallback
    appends the parameter, the control character is no longer trailing, and
    the result parses, with a host that serializes as [%01] and without the
    empty credentials. *)
Lemma addEmbedParameter_twice_differs :
  UrlLaws browser
  /\ new_URL browser ("a://@" ++ control_1) = None
  /\ addEmbedParameter browser ("a://@" ++ control_1)
     = "a://@" ++ control_1 ++ "?embed=true"
  /\ addEmbedParameter browser
       (addEmbedParameter browser ("a://@" ++ control_1))
     = "a://%01?embed=true"
  /\ (addEmbedParameter browser
        (addEmbedParameter browser ("a://@" ++ control_1))
      =? addEmbedParameter browser ("a://@" ++ control_1)) = false.
Proof.
  split; [apply whatwg_laws|]. repeat split; vm_compute; reflexivity.
Qed.

Lemma handlePresetChange_inherited_key_at_start :
  (embedWidthInput story_start = Some "100%"
   /\ embedHeightInput story_start = Some "800")
  /\ embedWidthInput
       (run (handlePresetChange browser story_page "constructor") story_start)
     = Some "undefined"
  /\ embedHeightInput
       (run (handlePresetChange browser story_page "constructor") story_start)
     = Some "undefined".
Proof.
  split; [split; reflexivity|].
  exact (handlePresetChange_inherited_key browser story_page story_start
           "100%" "800" eq_refl eq_refl).
Defined.

Lemma getStoryTitle_by_priority_at_story_page :
  currentStoryUrl story_start <> ""
  /\ getStoryTitle story_page story_start
     = title_by_priority story_page story_start.
Proof.
  assert (H : currentStoryUrl story_start <> "") by discriminate.
  split; [exact H|].
  exact (getStoryTitle_by_priority story_page story_start H).
Defined.

(* ===================================================================== *)
(** ** Further properties of the embed snippet and the presets *)
(* ===================================================================== *)

Section Snippet.

Context (P : Platform) (pg : Page).

Lemma generateEmbedCode_ok (s : State) :
  embedWidthInput s <> None -> embedHeightInput s <> None ->
  exists code, fst (generateEmbedCode P pg s) = Ok code.
Proof.
  destruct s as [cur av pan sui scl ssu scs sss eps ewi ehi ect ecc ess sm ef].
  simpl. intros Hw Hh.
  destruct ewi as [w|]; [|congruence]. destruct ehi as [h|]; [|congruence].
  destruct cur as [|c cur]; script; eexists; reflexivity.
Qed.

Lemma embed_outcome_ok (s : State) :
  embedWidthInput s <> None -> embedHeightInput s <> None ->
  embed_outcome P pg s = Ok tt.
Proof.
  intros Hw Hh. unfold embed_outcome.
  destruct (embedCodeTextarea s); [|reflexivity].
  destruct (generateEmbedCode_ok s Hw Hh) as [code ->]. reflexivity.
Qed.

Lemma updateEmbedCode_ok (s : State) :
  embedWidthInput s <> None -> embedHeightInput s <> None ->
  outcome (updateEmbedCode P pg) s = Ok tt.
Proof.
  intros Hw Hh. unfold outcome. rewrite updateEmbedCode_run.
  now apply embed_outcome_ok.
Qed.

Lemma own_property_listed (key : string) (p : Preset) :
  In (key, p) presets -> own_property key presets = Some p.
Proof.
  intro H. repeat (destruct H as [H|H]; [injection H as <- <-; reflexivity|]).
  destruct H.
Qed.

Lemma own_property_unlisted (key : string) (l : list (string * Preset)) :
  ~ In key (List.map fst l) -> own_property key l = None.
Proof.
  induction l as [|[k p] l IH]; simpl; [reflexivity|]. intro H.
  destruct (k =? key) eqn:E.
  - apply String.eqb_eq in E. destruct H. now left.
  - apply IH. intro Hin. apply H. now right.
Qed.

Lemma own_property_sound (key : string) (p : Preset)
    (l : list (string * Preset)) :
  own_property key l = Some p -> In (key, p) l.
Proof.
  induction l as [|[k q] l IH]; simpl; [discriminate|].
  destruct (k =? key) eqn:E.
  - intro H. injection H as ->. apply String.eqb_eq in E. subst k. now left.
  - intro H. right. now apply IH.
Qed.

(** The own properties of the object literal are the seven pairs of the
    table, and no others. *)
Lemma presets_table (key : string) (p : Preset) :
  presets_get key = Own p <-> In (key, p) presets.
Proof.
  unfold presets_get. split.
  - destruct (own_property key presets) as [q|] eqn:E.
    + intro H. injection H as ->. now apply own_property_sound.
    + destruct (existsb _ _); discriminate.
  - intro H. now rewrite (own_property_listed key p H).
Qed.

(** X1. [generateEmbedCode] reads the state and never writes it. With no
    story selected it returns the empty string, whatever is missing from
    the page. With a story selected it reads the two dimension inputs
    without a guard, the width first and before anything else: a missing
    input makes it throw the TypeError of that input. *)
Theorem generateEmbedCode_missing_input_throws (s : State) :
  snd (generateEmbedCode P pg s) = s
  /\ (currentStoryUrl s = "" ->
      outcome (generateEmbedCode P pg) s = Ok "")
  /\ (currentStoryUrl s <> "" -> embedWidthInput s = None ->
      outcome (generateEmbedCode P pg) s
      = Throw (TypeError "embedWidthInput"))
  /\ (currentStoryUrl s <> "" ->
      embedWidthInput s <> None -> embedHeightInput s = None ->
      outcome (generateEmbedCode P pg) s
      = Throw (TypeError "embedHeightInput")).
Proof.
  split; [apply generateEmbedCode_state|].
  destruct s as [cur av pan sui scl ssu scs sss eps ewi ehi ect ecc ess sm ef].
  simpl. split; [|split].
  - intros ->. reflexivity.
  - intros Hc ->. destruct cur; [congruence|reflexivity].
  - intros Hc Hw ->. destruct cur; [congruence|].
    destruct ewi; [reflexivity|congruence].
Qed.

(** X2. With a story selected and both dimension fields empty or white
    space, the snippet carries the defaults: width [100%] and height
    [800px]. *)
Theorem generateEmbedCode_blank_dimensions (s : State) (w h : string) :
  currentStoryUrl s <> "" ->
  embedWidthInput s = Some w -> embedHeightInput s = Some h ->
  Js.trim w = "" -> Js.trim h = "" ->
  outcome (generateEmbedCode P pg) s
  = Ok ("<iframe src=" ++ dquote ++ addEmbedParameter P (currentStoryUrl s)
        ++ dquote ++ newline
        ++ "  width=" ++ dquote ++ "100%" ++ dquote ++ newline
        ++ "  height=" ++ dquote ++ "800px" ++ dquote ++ newline
        ++ "  title=" ++ dquote ++ getStoryTitle pg s ++ dquote ++ newline
        ++ "  frameborder=" ++ dquote ++ "0" ++ dquote ++ ">" ++ newline
        ++ "</iframe>").
Proof.
  destruct s as [cur av pan sui scl ssu scs sss eps ewi ehi ect ecc ess sm ef].
  simpl. intros Hc Hw Hh Tw Th. subst ewi ehi.
  destruct cur as [|c cur]; [congruence|]. script. rewrite Tw, Th.
  reflexivity.
Qed.

(** What a [change] event of the preset selector comes to. *)
Lemma dispatch_ChangePreset (s : State) (i : nat) (sel : Select)
    (picked : OptionEl) :
  sharePanel s = true ->
  embedPresetSelect s = Some sel ->
  nth_error (options sel) i = Some picked ->
  dispatch P pg (ChangePreset i) s
  = handlePresetChange P pg (opt_value picked)
      (set_embedPresetSelect (Some (Dom.select_pick i sel)) s).
Proof.
  destruct s as [cur av pan sui scl ssu scs sss eps ewi ehi ect ecc ess sm ef].
  simpl. intros -> -> Hn. script_events. now rewrite Hn.
Qed.

(** C5. [handlePresetChange] is the [change] listener of the preset
    selector and its key is the value of the option chosen there. On a
    panel whose preset selector has no option named after a member of
    [Object.prototype] (the panel offers the seven keys of the table and
    [custom]), every choice calls the handler with the value of the chosen
    option, and: for a key of the table, with both dimension inputs
    present, both inputs receive exactly the pair of the table and the
    snippet is recomputed from the new dimensions; for any other key the
    handler returns with nothing changed and nothing recomputed. *)
Theorem preset_chosen_by_table (s : State) (sel : Select) (i : nat)
    (picked : OptionEl) :
  sharePanel s = true ->
  embedPresetSelect s = Some sel ->
  (forall o, In o (options sel) ->
             ~ In (opt_value o) Object_prototype_members) ->
  nth_error (options sel) i = Some picked ->
  dispatch P pg (ChangePreset i) s
  = handlePresetChange P pg (opt_value picked)
      (set_embedPresetSelect (Some (Dom.select_pick i sel)) s)
  /\ (forall p w h,
        In (opt_value picked, p) presets ->
        embedWidthInput s = Some w -> embedHeightInput s = Some h ->
        embedWidthInput (run (dispatch P pg (ChangePreset i)) s)
        = Some (width p)
        /\ embedHeightInput (run (dispatch P pg (ChangePreset i)) s)
           = Some (height p)
        /\ embedCodeTextarea (run (dispatch P pg (ChangePreset i)) s)
           = embed_code_shown P pg
               (set_embedHeightInput (Some (height p))
                  (set_embedWidthInput (Some (width p))
                     (set_embedPresetSelect
                        (Some (Dom.select_pick i sel)) s))))
  /\ (~ In (opt_value picked) (List.map fst presets) ->
      dispatch P pg (ChangePreset i) s
      = (Ok tt, set_embedPresetSelect (Some (Dom.select_pick i sel)) s)).
Proof.
  intros Hp Hs Hplain Hn.
  pose proof (dispatch_ChangePreset s i sel picked Hp Hs Hn) as Hd.
  split; [exact Hd|split].
  - intros p w h Hin Hw Hh. unfold run. rewrite Hd.
    pose proof (proj2 (presets_table (opt_value picked) p) Hin) as Hg.
    rewrite (handlePresetChange_found P pg (opt_value picked) _ w h);
      [|rewrite Hg; discriminate
       |rewrite <- Hw; now destruct s|rewrite <- Hh; now destruct s].
    rewrite Hg, updateEmbedCode_run. simpl member_as_value.
    repeat split.
  - intro Hk. rewrite Hd. apply handlePresetChange_unknown.
    unfold presets_get.
    rewrite (own_property_unlisted (opt_value picked) presets Hk).
    destruct (existsb (String.eqb (opt_value picked))
                Object_prototype_members) eqn:E; [|reflexivity].
    apply existsb_exists in E as (m & Hin & Heq).
    apply String.eqb_eq in Heq. subst m.
    destruct (Hplain picked (nth_error_In _ i Hn) Hin).
Qed.

(** X3. For each of the seven keys of the table, with both dimension inputs
    present, [handlePresetChange] ends without an exception, writes exactly
    the pair of the table into the two inputs, and recomputes the snippet
    from the state that holds the new dimensions. *)
Theorem handlePresetChange_sets_table_pair (key : string) (p : Preset)
    (s : State) (w h : string) :
  In (key, p) presets ->
  embedWidthInput s = Some w -> embedHeightInput s = Some h ->
  outcome (handlePresetChange P pg key) s = Ok tt
  /\ embedWidthInput (run (handlePresetChange P pg key) s) = Some (width p)
  /\ embedHeightInput (run (handlePresetChange P pg key) s) = Some (height p)
  /\ embedCodeTextarea (run (handlePresetChange P pg key) s)
     = embed_code_shown P pg
         (set_embedHeightInput (Some (height p))
            (set_embedWidthInput (Some (width p)) s)).
Proof.
  intros Hin Hw Hh. unfold run, outcome.
  pose proof (proj2 (presets_table key p) Hin) as Hg.
  rewrite (handlePresetChange_found P pg key s w h);
    [|rewrite Hg; discriminate|assumption|assumption].
  rewrite Hg. simpl member_as_value. split.
  - apply updateEmbedCode_ok; discriminate.
  - rewrite updateEmbedCode_run. repeat split.
Qed.

(** X4. A key that is neither one of the table nor a member of
    [Object.prototype], such as [custom] or the empty string, changes
    nothing and throws nothing. *)
Theorem handlePresetChange_unlisted_key (key : string) (s : State) :
  ~ In key (List.map fst presets) ->
  ~ In key Object_prototype_members ->
  handlePresetChange P pg key s = (Ok tt, s).
Proof.
  intros Hk Hm. apply handlePresetChange_unknown. unfold presets_get.
  rewrite (own_property_unlisted key presets Hk).
  destruct (existsb (String.eqb key) Object_prototype_members) eqn:E;
    [|reflexivity].
  apply existsb_exists in E as (m & Hin & Heq).
  apply String.eqb_eq in Heq. subst m. contradiction.
Qed.

(** X5. The two dimension inputs are assigned without a null guard: with a
    known key and the width input missing the handler throws before it
    writes anything; with only the height input missing it has already
    overwritten the width when it throws, and the snippet is not
    recomputed. *)
Theorem handlePresetChange_missing_input (key : string) (p : Preset)
    (s : State) :
  In (key, p) presets ->
  (embedWidthInput s = None ->
   handlePresetChange P pg key s = (Throw (TypeError "embedWidthInput"), s))
  /\ (forall w, embedWidthInput s = Some w -> embedHeightInput s = None ->
      handlePresetChange P pg key s
      = (Throw (TypeError "embedHeightInput"),
         set_embedWidthInput (Some (width p)) s)).
Proof.
  intro Hin.
  pose proof (proj2 (presets_table key p) Hin) as Hg.
  unfold handlePresetChange. rewrite Hg.
  destruct s as [cur av pan sui scl ssu scs sss eps ewi ehi ect ecc ess sm ef].
  simpl. split.
  - intros ->. reflexivity.
  - intros w -> ->. reflexivity.
Qed.

End Snippet.

Lemma preset_chosen_by_table_at_story_page :
  (sharePanel story_start = true
   /\ embedPresetSelect story_start = Some preset_options
   /\ (forall o, In o (options preset_options) ->
                 ~ In (opt_value o) Object_prototype_members))
  /\ embedWidthInput
       (run (dispatch browser story_page (ChangePreset 5)) story_start)
     = Some "375"
  /\ embedHeightInput
       (run (dispatch browser story_page (ChangePreset 5)) story_start)
     = Some "500"
  /\ dispatch browser story_page (ChangePreset 7) story_start
     = (Ok tt,
        set_embedPresetSelect (Some (Dom.select_pick 7 preset_options))
          story_start).
Proof.
  assert (Hplain : forall o, In o (options preset_options) ->
                             ~ In (opt_value o) Object_prototype_members).
  { intros o Hin. simpl in Hin.
    repeat (destruct Hin as [<-|Hin]; [simpl; intuition discriminate|]).
    destruct Hin. }
  split; [repeat split; exact Hplain|].
  destruct (preset_chosen_by_table browser story_page story_start
              preset_options 5 {| opt_value := "mobile"; opt_text := "mobile" |}
              eq_refl eq_refl Hplain eq_refl) as (_ & Hmobile & _).
  destruct (Hmobile {| width := "375"; height := "500" |} "100%" "800")
    as (Hw & Hh & _); [simpl; tauto|reflexivity|reflexivity|].
  destruct (preset_chosen_by_table browser story_page story_start
              preset_options 7 {| opt_value := "custom"; opt_text := "custom" |}
              eq_refl eq_refl Hplain eq_refl) as (_ & _ & Hcustom).
  split; [exact Hw|split; [exact Hh|]].
  apply Hcustom. simpl. intuition discriminate.
Defined.

Lemma handlePresetChange_sets_table_pair_mobile :
  (In ("mobile", {| width := "375"; height := "500" |}) presets
   /\ embedWidthInput story_start = Some "100%"
   /\ embedHeightInput story_start = Some "800")
  /\ embedWidthInput
       (run (handlePresetChange browser story_page "mobile") story_start)
     = Some "375"
  /\ embedHeightInput
       (run (handlePresetChange browser story_page "mobile") story_start)
     = Some "500".
Proof.
  assert (Hin : In ("mobile", {| width := "375"; height := "500" |}) presets)
    by (simpl; tauto).
  split; [repeat split; exact Hin|].
  destruct (handlePresetChange_sets_table_pair browser story_page "mobile" _
              story_start "100%" "800" Hin eq_refl eq_refl)
    as (_ & H1 & H2 & _).
  split; [exact H1|exact H2].
Defined.

Lemma handlePresetChange_unlisted_key_custom :
  (~ In "custom" (List.map fst presets)
   /\ ~ In "custom" Object_prototype_members)
  /\ handlePresetChange browser story_page "custom" story_start
     = (Ok tt, story_start).
Proof.
  assert (H1 : ~ In "custom" (List.map fst presets))
    by (simpl; intuition discriminate).
  assert (H2 : ~ In "custom" Object_prototype_members)
    by (simpl; intuition discriminate).
  split; [split; assumption|].
  exact (handlePresetChange_unlisted_key browser story_page "custom"
           story_start H1 H2).
Defined.

Lemma handlePresetChange_missing_input_fixed :
  In ("fixed", {| width := "800"; height := "600" |}) presets
  /\ handlePresetChange browser story_page "fixed"
       (set_embedHeightInput None story_start)
     = (Throw (TypeError "embedHeightInput"),
        set_embedWidthInput (Some "800")
          (set_embedHeightInput None story_start)).
Proof.
  assert (Hin : In ("fixed", {| width := "800"; height := "600" |}) presets)
    by (simpl; tauto).
  split; [exact Hin|].
  exact (proj2 (handlePresetChange_missing_input browser story_page "fixed" _
                  (set_embedHeightInput None story_start) Hin)
           "100%" eq_refl eq_refl).
Defined.

Lemma generateEmbedCode_blank_dimensions_at_story_page :
  (currentStoryUrl (set_embedWidthInput (Some "  ") story_start) <> ""
   /\ Js.trim "  " = "")
  /\ outcome (generateEmbedCode browser story_page)
       (set_embedHeightInput (Some "")
          (set_embedWidthInput (Some "  ") story_start))
     = outcome (generateEmbedCode browser story_page)
         (set_embedHeightInput (Some "800")
            (set_embedWidthInput (Some "100%") story_start)).
Proof.
  assert (Hc : currentStoryUrl
                 (set_embedHeightInput (Some "")
                    (set_embedWidthInput (Some "  ") story_start)) <> "")
    by discriminate.
  split; [split; [discriminate|reflexivity]|].
  rewrite (generateEmbedCode_blank_dimensions browser story_page _ "  " ""
             Hc eq_refl eq_refl eq_refl eq_refl).
  reflexivity.
Defined.

(* ===================================================================== *)
(** ** Further properties of the share fields *)
(* ===================================================================== *)

Lemma filter_split_first_segment (path : string) :
  filter Js.truthy (Js.split Js.is_slash path) = []
  /\ first_segment path = ""
  \/ exists rest,
       filter Js.truthy (Js.split Js.is_slash path)
       = first_segment path :: rest
       /\ first_segment path <> "".
Proof.
  unfold first_segment. induction path as [|c path IH]; [now left|].
  simpl. destruct (Js.is_slash c) eqn:E.
  - simpl. exact IH.
  - right. simpl. rewrite E.
    pose proof (first_split Js.is_slash path) as Hf.
    destruct (Js.split Js.is_slash path) as [|piece rest] eqn:Es.
    + now destruct (split_nonempty _ _ Es).
    + simpl in Hf. destruct (Str.break Js.is_slash path) as [a b].
      simpl in *. subst a. exists (filter Js.truthy rest).
      split; [reflexivity|discriminate].
Qed.

Section ShareFields.

Context (P : Platform) (pg : Page).

(** X6. The site URL is the origin, a slash, and, when the path of the page
    has a segment that is not empty, the first such segment and a slash:
    leading and repeated slashes are skipped and deeper segments dropped. *)
Theorem updateShareUrl_site_field (s : State) (old : string) :
  shareSiteUrlInput s = Some old ->
  shareSiteUrlInput (run (updateShareUrl P pg) s)
  = Some (location_origin pg ++ "/"
          ++ (if first_segment (location_pathname pg) =? "" then ""
              else first_segment (location_pathname pg) ++ "/")).
Proof.
  intro H. unfold run. rewrite updateShareUrl_run. simpl snd.
  destruct s as [cur av pan sui scl ssu scs sss eps ewi ehi ect ecc ess sm ef].
  simpl in H. subst ssu. simpl. f_equal. unfold site_url. f_equal.
  destruct (filter_split_first_segment (location_pathname pg))
    as [[-> ->]|(rest & -> & Hne)]; [reflexivity|].
  apply String.eqb_neq in Hne. now rewrite Hne.
Qed.

(** X7. [updateShareUrl] never throws, writes only the two share fields,
    keeps an absent field absent, and changes nothing when it runs again. *)
Theorem updateShareUrl_writes_share_fields_once (s : State) :
  outcome (updateShareUrl P pg) s = Ok tt
  /\ (exists story site,
        run (updateShareUrl P pg) s
        = set_shareUrlInput story (set_shareSiteUrlInput site s)
        /\ (story = None <-> shareUrlInput s = None)
        /\ (site = None <-> shareSiteUrlInput s = None))
  /\ run (updateShareUrl P pg) (run (updateShareUrl P pg) s)
     = run (updateShareUrl P pg) s.
Proof.
  unfold run, outcome. rewrite !updateShareUrl_run. simpl fst. simpl snd.
  split; [reflexivity|split].
  - eexists _, _. split; [reflexivity|].
    destruct (shareUrlInput s), (shareSiteUrlInput s); simpl;
      split; split; congruence.
  - destruct s as [cur av pan sui scl ssu scs sss eps ewi ehi ect ecc ess sm ef].
    destruct sui, ssu; reflexivity.
Qed.

(** X8. A story selection sets the current URL to the selected value,
    enables both copy buttons exactly when the value is not empty, and shows
    [share_url] of the value in the story link field. *)
Theorem handleStoryChange_enables_copy (s : State) (event : ChangeEvent) :
  currentStoryUrl (run (handleStoryChange P pg event) s) = target_value event
  /\ disabled_flag (shareCopyLinkBtn (run (handleStoryChange P pg event) s))
     = option_map (fun _ => target_value event =? "") (shareCopyLinkBtn s)
  /\ disabled_flag (embedCopyCodeBtn (run (handleStoryChange P pg event) s))
     = option_map (fun _ => target_value event =? "") (embedCopyCodeBtn s)
  /\ shareUrlInput (run (handleStoryChange P pg event) s)
     = option_map (fun _ => share_url P (target_value event))
                  (shareUrlInput s).
Proof.
  destruct (handleStoryChange_effect P pg s event)
    as (H1 & _ & _ & H4 & H5 & H6).
  now repeat split.
Qed.

End ShareFields.

(* ===================================================================== *)
(** ** Further properties of the selectors *)
(* ===================================================================== *)

Lemma index_of_sound (v : string) (l : list OptionEl) (j : nat) :
  Dom.index_of v l = Some j ->
  exists o, nth_error l j = Some o /\ opt_value o = v.
Proof.
  revert j. induction l as [|a l IH]; intros j H; [discriminate H|].
  simpl in H. destruct (opt_value a =? v) eqn:E.
  - injection H as <-. exists a. apply String.eqb_eq in E. now split.
  - destruct (Dom.index_of v l) as [k|]; [|discriminate H].
    injection H as <-. exact (IH k eq_refl).
Qed.

(** Assigning a value to a selector and reading it back gives that value
    or the empty string. *)
Lemma select_set_value_reads (v : string) (sel : Select) :
  Dom.select_value (Dom.select_set_value v sel) = v
  \/ Dom.select_value (Dom.select_set_value v sel) = "".
Proof.
  unfold Dom.select_value, Dom.selected_option, Dom.select_set_value. simpl.
  destruct (Dom.index_of v (options sel)) as [j|] eqn:E; [|now right].
  destruct (index_of_sound v _ j E) as (o & Hn & Ho). rewrite Hn. now left.
Qed.

Section SelectorProperties.

Context (P : Platform) (pg : Page).

(** X9. With a catalog that is not empty, [populateStorySelectors] ends
    without an exception and gives each selector that exists the placeholder
    followed by one option per story, in catalog order, with the placeholder
    selected; a selector that is absent stays absent. *)
Theorem populateStorySelectors_fills (s : State) (w : Widget) :
  availableStories s <> [] ->
  outcome (populateStorySelectors P pg) s = Ok tt
  /\ get_select w (run (populateStorySelectors P pg) s)
     = option_map
         (fun _ => {| options := catalog_options P pg (availableStories s);
                      selectedIndex := Some 0 |})
         (get_select w s).
Proof.
  destruct s as [cur av pan sui scl ssu scs sss eps ewi ehi ect ecc ess sm ef].
  simpl. intro H. destruct av as [|story rest]; [congruence|].
  destruct w, sss, ess; split; reflexivity.
Qed.

(** X10. Opening the panel on a catalog page resets both selectors: each
    reads the empty value afterwards, whether or not it has a placeholder
    option. *)
Theorem handlePanelOpen_resets_selectors (s : State) (w : Widget)
    (sel : Select) :
  shareStorySelect s <> None ->
  get_select w s = Some sel ->
  widget_value w (run (handlePanelOpen P pg) s) = Some ""
  /\ option_map options (get_select w (run (handlePanelOpen P pg) s))
     = Some (options sel).
Proof.
  destruct s as [cur av pan sui scl ssu scs sss eps ewi ehi ect ecc ess sm ef].
  simpl. intros Hs Hw. destruct sss as [share|]; [clear Hs|congruence].
  assert (G : forall x, Some (Dom.select_value (Dom.select_set_value "" x))
                        = Some "").
  { intro x. now destruct (select_set_value_reads "" x) as [->| ->]. }
  destruct w; simpl in Hw;
    [injection Hw as ->; destruct ess|subst ess];
    destruct sui, scl, ect, ecc, ssu; script; split;
    first [apply G|reflexivity].
Qed.

End SelectorProperties.

Lemma updateShareUrl_site_field_at_home :
  shareSiteUrlInput home_start = Some ""
  /\ shareSiteUrlInput (run (updateShareUrl browser home_page) home_start)
     = Some "https://x/paisajes/".
Proof.
  split; [reflexivity|].
  exact (updateShareUrl_site_field browser home_page home_start ""
           eq_refl).
Defined.

Lemma populateStorySelectors_fills_at_home :
  availableStories (set_availableStories [story_a] home_start) <> []
  /\ get_select EmbedStorySelect
       (run (populateStorySelectors browser home_page)
            (set_availableStories [story_a] home_start))
     = Some {| options := [ {| opt_value := ""; opt_text := "Select" |};
                            {| opt_value := "https://x/a";
                               opt_text := "Story A" |} ];
               selectedIndex := Some 0 |}.
Proof.
  assert (H : availableStories (set_availableStories [story_a] home_start)
              <> []) by discriminate.
  split; [exact H|].
  exact (proj2 (populateStorySelectors_fills browser home_page
                  (set_availableStories [story_a] home_start)
                  EmbedStorySelect H)).
Defined.

Lemma handlePanelOpen_resets_selectors_at_home :
  (shareStorySelect
     (run (dispatch browser home_page (ChangeStory ShareStorySelect 1))
          home_loaded) <> None)
  /\ widget_value EmbedStorySelect
       (run (handlePanelOpen browser home_page)
            (run (dispatch browser home_page (ChangeStory ShareStorySelect 1))
                 home_loaded))
     = Some "".
Proof.
  assert (H : shareStorySelect
                (run (dispatch browser home_page
                        (ChangeStory ShareStorySelect 1)) home_loaded)
              <> None) by (vm_compute; discriminate).
  split; [exact H|].
  exact (proj1 (handlePanelOpen_resets_selectors browser home_page _
                  EmbedStorySelect
                  {| options := [ {| opt_value := ""; opt_text := "Select" |};
                                  story_option story_a ];
                     selectedIndex := Some 1 |} H eq_refl)).
Defined.

(* ===================================================================== *)
(** ** Further properties of the clipboard helper *)
(* ===================================================================== *)

(** X11. [copyToClipboard] throws exactly when [navigator.clipboard] is
    missing (the call itself throws, outside the promise); it then has done
    nothing else. *)
Theorem copyToClipboard_throws_iff (text : string) (b : ButtonId)
    (o : ClipboardOutcome) (s : State) :
  ((exists e, outcome (copyToClipboard text b o) s = Throw e)
   <-> o = Unavailable)
  /\ copyToClipboard text b Unavailable s
     = (Throw (TypeError "navigator.clipboard"), s).
Proof.
  split; [|reflexivity]. split.
  - intros [e He]. destruct o; [reflexivity| |];
      rewrite copyToClipboard_settled in He; discriminate.
  - intros ->. eexists. reflexivity.
Qed.

Lemma has_message_set_display (pane tab : nat) (v : string)
    (l : list (nat * string)) :
  has_message pane (set_display tab v l) = has_message pane l.
Proof.
  unfold has_message. induction l as [|[p d] l IH]; simpl; [reflexivity|].
  destruct (Nat.eqb p tab); simpl; [reflexivity|now rewrite IH].
Qed.

Lemma copyToClipboard_resolved_run (text : string) (b : ButtonId)
    (s : State) (btn : Button) (tab : nat) (icon : string) :
  get_button b s = Some btn ->
  btn_tab_pane btn = Some tab ->
  has_message tab (successMessages s) = true ->
  btn_icon btn = Some icon ->
  copyToClipboard text b Resolves s
  = (Ok tt,
     set_effects
       (effects s
        ++ [ClipboardWriteText text;
            SetTimeout (HideSuccessMessage tab) 3000;
            SetTimeout (RestoreIcon b icon) 2000])%list
       (set_button b (Some (set_icon "check_circle" btn))
          (set_successMessages
             (set_display tab "block" (successMessages s)) s))).
Proof.
  destruct s as [cur av pan sui scl ssu scs sss eps ewi ehi ect ecc ess sm ef].
  destruct btn as [d t ic]. simpl. intros Hb Ht Hm Hi. subst t ic.
  destruct b; simpl in Hb; subst; script; rewrite Hm; script;
    rewrite <- !app_assoc; reflexivity.
Qed.

Lemma get_button_after_feedback (b : ButtonId) (x : option Button)
    (l : list Effect) (m : list (nat * string)) (s : State) :
  get_button b (set_effects l (set_button b x (set_successMessages m s))) = x
  /\ successMessages
       (set_effects l (set_button b x (set_successMessages m s))) = m
  /\ effects (set_effects l (set_button b x (set_successMessages m s))) = l.
Proof. destruct s, b; repeat split. Qed.

(** X12. When the write resolves and the trigger button sits in a tab pane
    with a success message and has an icon, [copyToClipboard] shows the
    message and schedules its hiding after 3000 ms, replaces the icon by the
    check mark and schedules the return of the icon it found after 2000 ms.
    *)
Theorem copyToClipboard_resolved_feedback (text : string) (b : ButtonId)
    (s : State) (btn : Button) (tab : nat) (icon : string) :
  get_button b s = Some btn ->
  btn_tab_pane btn = Some tab ->
  has_message tab (successMessages s) = true ->
  btn_icon btn = Some icon ->
  effects (run (copyToClipboard text b Resolves) s)
  = (effects s
     ++ [ClipboardWriteText text;
         SetTimeout (HideSuccessMessage tab) 3000;
         SetTimeout (RestoreIcon b icon) 2000])%list
  /\ successMessages (run (copyToClipboard text b Resolves) s)
     = set_display tab "block" (successMessages s)
  /\ get_button b (run (copyToClipboard text b Resolves) s)
     = Some (set_icon "check_circle" btn).
Proof.
  intros Hb Ht Hm Hi. unfold run.
  rewrite (copyToClipboard_resolved_run text b s btn tab icon Hb Ht Hm Hi).
  simpl snd.
  destruct (get_button_after_feedback b (Some (set_icon "check_circle" btn))
              (effects s
               ++ [ClipboardWriteText text;
                   SetTimeout (HideSuccessMessage tab) 3000;
                   SetTimeout (RestoreIcon b icon) 2000])%list
              (set_display tab "block" (successMessages s)) s)
    as (H1 & H2 & H3).
  now rewrite H1, H2, H3.
Qed.

(** X13. A second copy that resolves before the timer of the first has run
    finds the check mark as the icon of the button and schedules the return
    of the check mark, not of the icon the button had at first. *)
Theorem copyToClipboard_twice_restores_check (text : string) (b : ButtonId)
    (s : State) (btn : Button) (tab : nat) (icon : string) :
  get_button b s = Some btn ->
  btn_tab_pane btn = Some tab ->
  has_message tab (successMessages s) = true ->
  btn_icon btn = Some icon ->
  effects (run (copyToClipboard text b Resolves)
             (run (copyToClipboard text b Resolves) s))
  = (effects (run (copyToClipboard text b Resolves) s)
     ++ [ClipboardWriteText text;
         SetTimeout (HideSuccessMessage tab) 3000;
         SetTimeout (RestoreIcon b "check_circle") 2000])%list.
Proof.
  intros Hb Ht Hm Hi. unfold run at 2 3.
  rewrite (copyToClipboard_resolved_run text b s btn tab icon Hb Ht Hm Hi).
  simpl snd.
  destruct (get_button_after_feedback b (Some (set_icon "check_circle" btn))
              (effects s
               ++ [ClipboardWriteText text;
                   SetTimeout (HideSuccessMessage tab) 3000;
                   SetTimeout (RestoreIcon b icon) 2000])%list
              (set_display tab "block" (successMessages s)) s)
    as (H1 & H2 & H3).
  unfold run.
  rewrite (copyToClipboard_resolved_run text b _
             (set_icon "check_circle" btn) tab "check_circle" H1 Ht);
    [|now rewrite H2, has_message_set_display|reflexivity].
  simpl snd.
  match goal with
  | |- effects (set_effects ?l (set_button ?b ?x (set_successMessages ?m ?t)))
       = _ =>
      rewrite (proj2 (proj2 (get_button_after_feedback b x l m t)))
  end.
  now rewrite H3.
Qed.

Lemma copyToClipboard_resolved_feedback_at_home :
  (get_button ShareCopySiteBtn home_loaded = Some (enabled_button 0)
   /\ has_message 0 (successMessages home_loaded) = true)
  /\ effects (run (copyToClipboard "https://x/paisajes/" ShareCopySiteBtn
                     Resolves) home_loaded)
     = [ConsoleLog "[Telar Share] Share panel initialized";
        ClipboardWriteText "https://x/paisajes/";
        SetTimeout (HideSuccessMessage 0) 3000;
        SetTimeout (RestoreIcon ShareCopySiteBtn "content_copy") 2000].
Proof.
  split; [split; reflexivity|].
  exact (proj1 (copyToClipboard_resolved_feedback "https://x/paisajes/"
                  ShareCopySiteBtn home_loaded (enabled_button 0) 0
                  "content_copy" eq_refl eq_refl eq_refl eq_refl)).
Defined.

Lemma copyToClipboard_twice_restores_check_at_home :
  get_button EmbedCopyCodeBtn home_loaded = Some (enabled_button 1)
  /\ effects (run (copyToClipboard "x" EmbedCopyCodeBtn Resolves)
                (run (copyToClipboard "x" EmbedCopyCodeBtn Resolves)
                     home_loaded))
     = (effects (run (copyToClipboard "x" EmbedCopyCodeBtn Resolves)
                     home_loaded)
        ++ [ClipboardWriteText "x";
            SetTimeout (HideSuccessMessage 1) 3000;
            SetTimeout (RestoreIcon EmbedCopyCodeBtn "check_circle") 2000])%list.
Proof.
  split; [reflexivity|].
  exact (copyToClipboard_twice_restores_check "x" EmbedCopyCodeBtn
           home_loaded (enabled_button 1) 1 "content_copy"
           eq_refl eq_refl eq_refl eq_refl).
Defined.

(* ===================================================================== *)
(** ** Further properties of the events *)
(* ===================================================================== *)

Ltac rewrite_updates :=
  script_top; rewrite ?updateShareUrl_run; lazy beta iota;
  rewrite ?updateEmbedCode_run; script_top.

Section EventProperties.

Context (P : Platform) (pg : Page).

Lemma handlePanelOpen_ok (s : State) :
  embedWidthInput s <> None -> embedHeightInput s <> None ->
  outcome (handlePanelOpen P pg) s = Ok tt.
Proof.
  destruct s as [cur av pan sui scl ssu scs sss eps ewi ehi ect ecc ess sm ef].
  simpl. intros Hw Hh.
  destruct sss, ess, sui, scl, ect, ecc; rewrite_updates;
    apply (embed_outcome_ok P pg); assumption.
Qed.

Lemma handleStoryChange_ok (s : State) (event : ChangeEvent) :
  embedWidthInput s <> None -> embedHeightInput s <> None ->
  outcome (handleStoryChange P pg event) s = Ok tt.
Proof.
  destruct s as [cur av pan sui scl ssu scs sss eps ewi ehi ect ecc ess sm ef].
  destruct event as [w v]. simpl. intros Hw Hh.
  destruct w, sss, ess, scl, ecc; rewrite_updates;
    apply (embed_outcome_ok P pg); assumption.
Qed.

Lemma handlePresetChange_ok (key : string) (s : State) :
  embedWidthInput s <> None -> embedHeightInput s <> None ->
  outcome (handlePresetChange P pg key) s = Ok tt.
Proof.
  intros Hw Hh. destruct (embedWidthInput s) as [w|] eqn:Ew; [|congruence].
  destruct (embedHeightInput s) as [h|] eqn:Eh; [|congruence].
  destruct (presets_get key) eqn:Ek.
  - unfold outcome.
    rewrite (handlePresetChange_found P pg key s w h); try assumption;
      [|rewrite Ek; discriminate].
    apply (updateEmbedCode_ok P pg); discriminate.
  - unfold outcome.
    rewrite (handlePresetChange_found P pg key s w h); try assumption;
      [|rewrite Ek; discriminate].
    apply (updateEmbedCode_ok P pg); discriminate.
  - unfold outcome. now rewrite handlePresetChange_unknown.
Qed.

(** X15. On a page whose story catalog is absent, or has parsed to a list
    of stories, in every state the script reaches with both dimension
    inputs on the page, no event makes a handler throw except a click on a
    copy button when [navigator.clipboard] is missing. *)
Theorem dispatch_throws_only_without_clipboard (ev : Event) (s : State) :
  reachable P pg s ->
  (telar_stories_data pg = None
   \/ exists text stories,
        telar_stories_data pg = Some text
        /\ JSON_parse_stories P text = Some stories) ->
  embedWidthInput s <> None -> embedHeightInput s <> None ->
  (forall b, ev <> Click b Unavailable) ->
  outcome (dispatch P pg ev) s = Ok tt.
Proof.
  intros _ _.
  destruct s as [cur av pan sui scl ssu scs sss eps ewi ehi ect ecc ess sm ef].
  simpl. intros Hw Hh Hev.
  destruct pan; [|reflexivity].
  destruct ev as [|b o|i|v|v|w i]; script_events.
  - match goal with
    | |- context [handlePanelOpen P pg ?S] =>
        exact (handlePanelOpen_ok S Hw Hh)
    end.
  - assert (Ho : o <> Unavailable) by (intros ->; now apply (Hev b)).
    destruct b; cases; try reflexivity;
      match goal with
      | |- context [copyToClipboard ?t ?b ?o ?S] =>
          exact (copyToClipboard_settled t b o S Ho)
      end.
  - cases; try reflexivity;
      match goal with
      | |- context [handlePresetChange P pg ?k ?S] =>
          exact (handlePresetChange_ok k S Hw Hh)
      end.
  - cases; try reflexivity;
      match goal with
      | |- context [updateEmbedCode P pg ?S] =>
          exact (updateEmbedCode_ok P pg S ltac:(discriminate) Hh)
      end.
  - cases; try reflexivity;
      match goal with
      | |- context [updateEmbedCode P pg ?S] =>
          exact (updateEmbedCode_ok P pg S Hw ltac:(discriminate))
      end.
  - destruct w; cases; try reflexivity;
      match goal with
      | |- context [handleStoryChange P pg ?e ?S] =>
          exact (handleStoryChange_ok S e Hw Hh)
      end.
Qed.

(** X16. [init] never throws: a payload that does not parse is caught. On a
    page without the panel it does nothing; with the panel it keeps the
    selection and ends by logging that the panel is initialized. *)
Theorem init_never_throws (s : State) :
  outcome (init P pg) s = Ok tt
  /\ currentStoryUrl (run (init P pg) s) = currentStoryUrl s
  /\ (sharePanel s = false -> run (init P pg) s = s)
  /\ (sharePanel s = true ->
      exists log,
        effects (run (init P pg) s)
        = (log ++ [ConsoleLog "[Telar Share] Share panel initialized"])%list).
Proof.
  split; [|split; [apply init_keeps_selection|]].
  - destruct s as [cur av pan sui scl ssu scs sss eps ewi ehi ect ecc ess sm ef].
    destruct pan; [|reflexivity]. script.
    destruct (telar_stories_data pg) as [text|]; [|reflexivity].
    destruct (JSON_parse_stories P text) as [[|story rest]|];
      try reflexivity.
    destruct sss, ess; reflexivity.
  - destruct s as [cur av pan sui scl ssu scs sss eps ewi ehi ect ecc ess sm ef].
    simpl. split; intro Hp; subst pan; [reflexivity|]. script.
    destruct (telar_stories_data pg) as [text|]; [|eexists; reflexivity].
    destruct (JSON_parse_stories P text) as [[|story rest]|];
      try (eexists; reflexivity).
    destruct sss, ess; eexists; reflexivity.
Qed.

(** *** The options of the selectors *)

Lemma keeps_selector_options_refl (s : State) : keeps_selector_options s s.
Proof. now repeat split. Qed.

Lemma updateEmbedCode_keeps_options (s : State) :
  keeps_selector_options s (run (updateEmbedCode P pg) s).
Proof.
  unfold run. rewrite updateEmbedCode_run. now repeat split.
Qed.

Lemma handlePresetChange_keeps_options (key : string) (s : State) :
  keeps_selector_options s (run (handlePresetChange P pg key) s).
Proof.
  unfold handlePresetChange.
  destruct s as [cur av pan sui scl ssu scs sss eps ewi ehi ect ecc ess sm ef].
  destruct (presets_get key), ewi, ehi; script_top;
    rewrite ?updateEmbedCode_run; now repeat split.
Qed.

Lemma copyToClipboard_keeps_options (text : string) (b : ButtonId)
    (o : ClipboardOutcome) (s : State) :
  keeps_selector_options s (run (copyToClipboard text b o) s).
Proof.
  destruct (copyToClipboard_same text b o s)
    as (_ & _ & _ & _ & _ & _ & _ & Hs & He & _).
  split; [|now rewrite Hs, He].
  destruct s as [cur av pan sui scl ssu scs sss eps ewi ehi ect ecc ess sm ef].
  destruct o; destruct b;
    [ | | | destruct scl as [[d [t|] [icon|]]|]
          | destruct scs as [[d [t|] [icon|]]|]
          | destruct ecc as [[d [t|] [icon|]]|] | | | ];
    destruct text; script;
    try match goal with
        | |- context [has_message ?t ?m] => destruct (has_message t m)
        end; reflexivity.
Qed.

Lemma handlePanelOpen_keeps_options (s : State) :
  keeps_selector_options s (run (handlePanelOpen P pg) s).
Proof.
  destruct s as [cur av pan sui scl ssu scs sss eps ewi ehi ect ecc ess sm ef].
  destruct sss, ess, sui, scl, ect, ecc; rewrite_updates;
    repeat split; reflexivity.
Qed.

Lemma handleStoryChange_keeps_options (event : ChangeEvent) (s : State) :
  keeps_selector_options s (run (handleStoryChange P pg event) s).
Proof.
  destruct s as [cur av pan sui scl ssu scs sss eps ewi ehi ect ecc ess sm ef].
  destruct event as [w v].
  destruct w, sss, ess, scl, ecc; rewrite_updates;
    repeat split; reflexivity.
Qed.

Lemma dispatch_keeps_options (ev : Event) (s : State) :
  keeps_selector_options s (run (dispatch P pg ev) s).
Proof.
  destruct s as [cur av pan sui scl ssu scs sss eps ewi ehi ect ecc ess sm ef].
  destruct pan; [|apply keeps_selector_options_refl].
  destruct ev as [|b o|i|v|v|w i]; script_events.
  - match goal with
    | |- context [handlePanelOpen P pg ?S] =>
        exact (handlePanelOpen_keeps_options S)
    end.
  - destruct b; cases; first
      [ match goal with
        | |- context [copyToClipboard ?t ?b ?o ?S] =>
            exact (copyToClipboard_keeps_options t b o S)
        end
      | apply keeps_selector_options_refl ].
  - cases; first
      [ match goal with
        | |- context [handlePresetChange P pg ?k ?S] =>
            exact (handlePresetChange_keeps_options k S)
        end
      | apply keeps_selector_options_refl ].
  - cases; first
      [ match goal with
        | |- context [updateEmbedCode P pg ?S] =>
            exact (updateEmbedCode_keeps_options S)
        end
      | apply keeps_selector_options_refl ].
  - cases; first
      [ match goal with
        | |- context [updateEmbedCode P pg ?S] =>
            exact (updateEmbedCode_keeps_options S)
        end
      | apply keeps_selector_options_refl ].
  - destruct w; cases; first
      [ match goal with
        | |- context [handleStoryChange P pg ?e ?S] =>
            exact (handleStoryChange_keeps_options e S)
        end
      | apply keeps_selector_options_refl ].
Qed.

Lemma selectors_loaded_kept (stories : list Story) (s s' : State) :
  keeps_selector_options s s' ->
  selectors_loaded P pg stories s -> selectors_loaded P pg stories s'.
Proof.
  intros (Hp & Hs & He) [Hl Ho]. split; [congruence|].
  intros w sel Hw.
  destruct w; simpl in Hw; rewrite Hw in *; simpl in *.
  - destruct (shareStorySelect s) as [x|] eqn:E; [|discriminate Hs].
    injection Hs as ->. exact (Ho ShareStorySelect x E).
  - destruct (embedStorySelect s) as [x|] eqn:E; [|discriminate He].
    injection He as ->. exact (Ho EmbedStorySelect x E).
Qed.

Lemma init_loads_selectors (text : string) (story : Story)
    (rest : list Story) (s : State) :
  telar_stories_data pg = Some text ->
  JSON_parse_stories P text = Some (story :: rest) ->
  sharePanel s = true ->
  selectors_loaded P pg (story :: rest) (run (init P pg) s).
Proof.
  destruct s as [cur av pan sui scl ssu scs sss eps ewi ehi ect ecc ess sm ef].
  simpl. intros Hd Hj ->. script. rewrite Hd, Hj.
  destruct sss, ess; script; (split; [reflexivity|]);
    intros [|] sel Hw; simpl in Hw; try discriminate Hw;
    injection Hw as <-; reflexivity.
Qed.

Lemma init_keeps_panel (s : State) :
  sharePanel (run (init P pg) s) = sharePanel s.
Proof.
  destruct s as [cur av pan sui scl ssu scs sss eps ewi ehi ect ecc ess sm ef].
  destruct pan; [|reflexivity]. script.
  destruct (telar_stories_data pg) as [text|]; [|reflexivity].
  destruct (JSON_parse_stories P text) as [[|st rest]|]; try reflexivity.
  destruct sss, ess; reflexivity.
Qed.

Lemma reachable_loaded (text : string) (story : Story) (rest : list Story)
    (s : State) :
  telar_stories_data pg = Some text ->
  JSON_parse_stories P text = Some (story :: rest) ->
  reachable P pg s -> sharePanel s = true ->
  selectors_loaded P pg (story :: rest) s.
Proof.
  intros Hd Hj Hr. induction Hr as [s Hf|s ev Hr IH]; intro Hp.
  - rewrite init_keeps_panel in Hp. now apply (init_loads_selectors text).
  - pose proof (dispatch_keeps_options ev s) as Hk.
    apply (selectors_loaded_kept _ s _ Hk). apply IH.
    destruct Hk as [Hk _]. congruence.
Qed.

Lemma story_selection_values (s : State) (w : Widget) (i : nat)
    (sel sib : Select) (picked : OptionEl) :
  sharePanel s = true ->
  get_select w s = Some sel ->
  nth_error (options sel) i = Some picked ->
  get_select (sibling w) s = Some sib ->
  offers (opt_value picked) sib ->
  widget_value w (run (dispatch P pg (ChangeStory w i)) s)
  = Some (opt_value picked)
  /\ widget_value (sibling w) (run (dispatch P pg (ChangeStory w i)) s)
     = Some (opt_value picked).
Proof.
  intros Hp Hs Hn Hb Hoff. unfold run.
  rewrite (dispatch_ChangeStory P pg s w i sel picked Hp Hs Hn).
  destruct (handleStoryChange_effect P pg
              (set_select w (Some (Dom.select_pick i sel)) s)
              {| target := w; target_value := opt_value picked |})
    as (_ & Ht & Hsib & _).
  unfold run in Ht, Hsib. simpl target in Ht, Hsib.
  simpl target_value in Hsib. unfold widget_value. rewrite Ht, Hsib.
  assert (Hw : get_select w (set_select w (Some (Dom.select_pick i sel)) s)
               = Some (Dom.select_pick i sel)) by now destruct w.
  assert (Hw' : get_select (sibling w)
                  (set_select w (Some (Dom.select_pick i sel)) s)
                = Some sib) by (rewrite <- Hb; now destruct w).
  rewrite Hw, Hw'. simpl. split.
  - unfold Dom.select_value, Dom.selected_option. simpl. now rewrite Hn.
  - now rewrite select_set_value_offered.
Qed.

Lemma story_selection_source_value (s : State) (w : Widget) (i : nat)
    (sel : Select) (picked : OptionEl) :
  sharePanel s = true ->
  get_select w s = Some sel ->
  nth_error (options sel) i = Some picked ->
  widget_value w (run (dispatch P pg (ChangeStory w i)) s)
  = Some (opt_value picked).
Proof.
  intros Hp Hs Hn. unfold run.
  rewrite (dispatch_ChangeStory P pg s w i sel picked Hp Hs Hn).
  destruct (handleStoryChange_effect P pg
              (set_select w (Some (Dom.select_pick i sel)) s)
              {| target := w; target_value := opt_value picked |})
    as (_ & Ht & _).
  unfold run in Ht. simpl target in Ht. unfold widget_value. rewrite Ht.
  assert (Hw : get_select w (set_select w (Some (Dom.select_pick i sel)) s)
               = Some (Dom.select_pick i sel)) by now destruct w.
  rewrite Hw. simpl.
  unfold Dom.select_value, Dom.selected_option. simpl. now rewrite Hn.
Qed.

Lemma same_options_kept (s s' : State) :
  keeps_selector_options s s' -> same_options s -> same_options s'.
Proof.
  unfold same_options. intros (_ & Hs & He) H a b Ha Hb.
  rewrite Ha in Hs. rewrite Hb in He. simpl in Hs, He.
  destruct (shareStorySelect s) as [x|]; [|discriminate Hs].
  destruct (embedStorySelect s) as [y|]; [|discriminate He].
  injection Hs as ->. injection He as ->. exact (H x y eq_refl eq_refl).
Qed.

Lemma init_keeps_same_options (s : State) :
  same_options s -> same_options (run (init P pg) s).
Proof.
  destruct s as [cur av pan sui scl ssu scs sss eps ewi ehi ect ecc ess sm ef].
  unfold same_options. simpl. intro H.
  destruct pan; [|exact H]. script.
  destruct (telar_stories_data pg) as [text|]; [|exact H].
  destruct (JSON_parse_stories P text) as [[|story rest]|]; try exact H.
  destruct sss, ess; script; intros a b Ha Hb;
    try discriminate Ha; try discriminate Hb.
  injection Ha as <-. injection Hb as <-. reflexivity.
Qed.

(** C6. The script fills both selectors from one catalog and changes the
    options of a selector nowhere else, so that two selectors that list
    the same options keep doing so through [init] and through every
    event. In such a state a selection made in either selector leaves that
    selector with the selected value, and the other selector, when it
    exists, with the identical value. *)
Theorem story_selection_keeps_selectors_in_step (s : State) :
  same_options s ->
  same_options (run (init P pg) s)
  /\ (forall ev, same_options (run (dispatch P pg ev) s))
  /\ (forall w i sel picked,
        sharePanel s = true ->
        get_select w s = Some sel ->
        nth_error (options sel) i = Some picked ->
        widget_value w (run (dispatch P pg (ChangeStory w i)) s)
        = Some (opt_value picked)
        /\ widget_value (sibling w) (run (dispatch P pg (ChangeStory w i)) s)
           = option_map (fun _ => opt_value picked)
                        (get_select (sibling w) s)).
Proof.
  intro Hsame. split; [now apply init_keeps_same_options|split].
  - intro ev. exact (same_options_kept s _ (dispatch_keeps_options ev s) Hsame).
  - intros w i sel picked Hp Hs Hn.
    split; [exact (story_selection_source_value s w i sel picked Hp Hs Hn)|].
    destruct (get_select (sibling w) s) as [sib|] eqn:Hb.
    + simpl. apply (story_selection_values s w i sel sib picked Hp Hs Hn Hb).
      exists picked. split; [|reflexivity].
      assert (Ho : options sib = options sel).
      { destruct w; simpl in Hs, Hb;
          [symmetry; exact (Hsame sel sib Hs Hb)|exact (Hsame sib sel Hb Hs)]. }
      rewrite Ho. exact (nth_error_In _ i Hn).
    + simpl. destruct (dispatch_keeps_options (ChangeStory w i) s)
        as (_ & Hs' & He').
      unfold widget_value.
      destruct w; simpl in Hb |- *.
      * rewrite Hb in He'.
        destruct (embedStorySelect (run (dispatch P pg
                    (ChangeStory ShareStorySelect i)) s));
          [discriminate He'|reflexivity].
      * rewrite Hb in Hs'.
        destruct (shareStorySelect (run (dispatch P pg
                    (ChangeStory EmbedStorySelect i)) s));
          [discriminate Hs'|reflexivity].
Qed.

(** X17. Once [init] has loaded a catalog of at least one story, in every
    state the script reaches afterwards a selection in either selector
    leaves both selectors with the selected value. *)
Theorem loaded_selectors_stay_synchronized (text : string) (story : Story)
    (rest : list Story) (s : State) (w : Widget) (i : nat)
    (sel sib : Select) (picked : OptionEl) :
  telar_stories_data pg = Some text ->
  JSON_parse_stories P text = Some (story :: rest) ->
  reachable P pg s ->
  sharePanel s = true ->
  get_select w s = Some sel ->
  get_select (sibling w) s = Some sib ->
  nth_error (options sel) i = Some picked ->
  widget_value w (run (dispatch P pg (ChangeStory w i)) s)
  = Some (opt_value picked)
  /\ widget_value (sibling w) (run (dispatch P pg (ChangeStory w i)) s)
     = Some (opt_value picked).
Proof.
  intros Hd Hj Hr Hp Hs Hb Hn.
  destruct (reachable_loaded text story rest s Hd Hj Hr Hp) as [_ Ho].
  apply (story_selection_values s w i sel sib picked Hp Hs Hn Hb).
  exists picked. split; [|reflexivity].
  rewrite (Ho _ _ Hb), <- (Ho _ _ Hs). now apply (nth_error_In _ i).
Qed.

End EventProperties.

Lemma dispatch_throws_only_without_clipboard_at_story_page :
  (reachable browser story_page (run (init browser story_page) story_start)
   /\ telar_stories_data story_page = None
   /\ embedWidthInput (run (init browser story_page) story_start) <> None
   /\ embedHeightInput (run (init browser story_page) story_start) <> None)
  /\ outcome (dispatch browser story_page ShowModal)
       (run (init browser story_page) story_start) = Ok tt.
Proof.
  assert (Hr : reachable browser story_page
                 (run (init browser story_page) story_start)).
  { apply reachable_init. split; reflexivity. }
  assert (Hw : embedWidthInput (run (init browser story_page) story_start)
               <> None) by discriminate.
  assert (Hh : embedHeightInput (run (init browser story_page) story_start)
               <> None) by discriminate.
  split; [repeat split; assumption|].
  apply (dispatch_throws_only_without_clipboard browser story_page ShowModal
           _ Hr (or_introl eq_refl) Hw Hh).
  intros b Hb. discriminate Hb.
Defined.

Lemma story_selection_keeps_selectors_in_step_at_home :
  same_options home_loaded
  /\ widget_value ShareStorySelect
       (run (dispatch browser home_page (ChangeStory ShareStorySelect 1))
            home_loaded)
     = Some "https://x/a"
  /\ widget_value EmbedStorySelect
       (run (dispatch browser home_page (ChangeStory ShareStorySelect 1))
            home_loaded)
     = Some "https://x/a".
Proof.
  assert (Hsame : same_options home_loaded).
  { intros a b Ha Hb. vm_compute in Ha, Hb.
    injection Ha as <-. injection Hb as <-. reflexivity. }
  split; [exact Hsame|].
  destruct (story_selection_keeps_selectors_in_step browser home_page
              home_loaded Hsame) as (_ & _ & Hsel).
  exact (Hsel ShareStorySelect 1
           {| options := [ {| opt_value := ""; opt_text := "Select" |};
                           story_option story_a ];
              selectedIndex := Some 0 |}
           (story_option story_a) eq_refl eq_refl eq_refl).
Defined.

Lemma loaded_selectors_stay_synchronized_at_home :
  reachable browser home_page home_loaded
  /\ widget_value EmbedStorySelect
       (run (dispatch browser home_page (ChangeStory EmbedStorySelect 1))
            home_loaded)
     = Some "https://x/a"
  /\ widget_value ShareStorySelect
       (run (dispatch browser home_page (ChangeStory EmbedStorySelect 1))
            home_loaded)
     = Some "https://x/a".
Proof.
  assert (Hr : reachable browser home_page home_loaded).
  { apply reachable_init. split; reflexivity. }
  split; [exact Hr|].
  exact (loaded_selectors_stay_synchronized browser home_page "stories"
           story_a [] home_loaded EmbedStorySelect 1
           {| options := [ {| opt_value := ""; opt_text := "Select" |};
                           story_option story_a ];
              selectedIndex := Some 0 |}
           {| options := [ {| opt_value := ""; opt_text := "Select" |};
                           story_option story_a ];
              selectedIndex := Some 0 |}
           (story_option story_a)
           eq_refl eq_refl Hr eq_refl eq_refl eq_refl eq_refl).
Defined.

(* ===================================================================== *)
(** ** Clicks on the copy buttons *)
(* ===================================================================== *)

Section Clicks.

Context (P : Platform) (pg : Page).

Lemma dispatch_Click (b : ButtonId) (o : ClipboardOutcome) (s : State)
    (btn : Button) :
  sharePanel s = true -> get_button b s = Some btn ->
  dispatch P pg (Click b o) s
  = if btn_disabled btn then (Ok tt, s) else on_click b o s.
Proof.
  destruct s as [cur av pan sui scl ssu scs sss eps ewi ehi ect ecc ess sm ef].
  simpl. intros -> Hb. destruct btn as [[|] t ic].
  - destruct b; simpl in Hb; subst; reflexivity.
  - destruct b; simpl in Hb; subst; script_events; reflexivity.
Qed.

Lemma copyToClipboard_writes_first (text : string) (b : ButtonId)
    (s : State) :
  exists rest,
    effects (run (copyToClipboard text b Resolves) s)
    = (effects s ++ ClipboardWriteText text :: rest)%list.
Proof.
  destruct s as [cur av pan sui scl ssu scs sss eps ewi ehi ect ecc ess sm ef].
  destruct b;
    [ destruct scl as [[d [t|] [icon|]]|]
    | destruct scs as [[d [t|] [icon|]]|]
    | destruct ecc as [[d [t|] [icon|]]|] ];
    destruct text; script;
    try match goal with
        | |- context [has_message ?t ?m] => destruct (has_message t m)
        end;
    script; rewrite <- ?app_assoc; eexists; reflexivity.
Qed.

(** X14. A click whose clipboard write resolves never reports a failure.
    The listener of a copy button is attached only when the button exists
    and passes that button to [copyToClipboard], so [showSuccessFeedback]
    finds its trigger button, does not throw, and the rejection handler
    does not run: neither [console.error] nor the manual-copy notice is
    among the effects of the click. *)
Theorem click_resolved_reports_no_failure (s : State) (b : ButtonId) :
  exists added,
    effects (run (dispatch P pg (Click b Resolves)) s)
    = (effects s ++ added)%list
    /\ existsb failure_report added = false.
Proof.
  destruct s as [cur av pan sui scl ssu scs sss eps ewi ehi ect ecc ess sm ef].
  destruct pan;
    [|exists []; split; [symmetry; apply app_nil_r|reflexivity]].
  destruct b;
    [ destruct scl as [[[|] [t|] [icon|]]|], sui as [v|]
    | destruct scs as [[[|] [t|] [icon|]]|], ssu as [v|]
    | destruct ecc as [[[|] [t|] [icon|]]|], ect as [v|] ];
    script;
    try match goal with
        | |- context [has_message ?t ?m] => destruct (has_message t m)
        end;
    script; rewrite <- ?app_assoc;
    first [ eexists; split; [reflexivity|reflexivity]
          | exists []; split; [symmetry; apply app_nil_r|reflexivity] ].
Qed.

(** X18. In every state the script reaches, while no story is selected a
    click on the copy-link button or on the copy-code button does nothing at
    all: the button is absent or disabled, so nothing reaches the clipboard
    and nothing is logged. *)
Theorem click_without_selection_does_nothing (s : State) (b : ButtonId)
    (o : ClipboardOutcome) :
  location_href pg <> "" ->
  reachable P pg s ->
  currentStoryUrl s = "" ->
  b <> ShareCopySiteBtn ->
  dispatch P pg (Click b o) s = (Ok tt, s).
Proof.
  intros Hhref Hr Hc Hb.
  destruct (reachable_invariant P pg s Hhref Hr Hc) as (_ & _ & Hl & He).
  destruct (sharePanel s) eqn:Ep.
  - destruct (get_button b s) as [btn|] eqn:Eb.
    + rewrite (dispatch_Click b o s btn Ep Eb).
      assert (Hd : btn_disabled btn = true)
        by (destruct b; [apply Hl|congruence|apply He]; exact Eb).
      now rewrite Hd.
    + destruct s; simpl in Ep; subst.
      destruct b; simpl in Eb; subst; reflexivity.
  - destruct s; simpl in Ep; subst. reflexivity.
Qed.

(** X19. After a story with a value that is not empty has been selected in
    either selector, a click on the copy-link button writes [share_url] of
    that value to the clipboard: the selection enables the button and fills
    the field the click reads. *)
Theorem copy_link_after_selection (s : State) (w : Widget) (i : nat)
    (sel : Select) (picked : OptionEl) (old : string) (btn : Button) :
  sharePanel s = true ->
  get_select w s = Some sel ->
  nth_error (options sel) i = Some picked ->
  opt_value picked <> "" ->
  shareUrlInput s = Some old ->
  shareCopyLinkBtn s = Some btn ->
  exists rest,
    effects (run (dispatch P pg (Click ShareCopyLinkBtn Resolves))
               (run (dispatch P pg (ChangeStory w i)) s))
    = (effects (run (dispatch P pg (ChangeStory w i)) s)
       ++ ClipboardWriteText (share_url P (opt_value picked)) :: rest)%list.
Proof.
  intros Hp Hs Hn Hv Hu Hb.
  set (s0 := set_select w (Some (Dom.select_pick i sel)) s).
  set (s1 := run (dispatch P pg (ChangeStory w i)) s).
  assert (Hp' : sharePanel s1 = true).
  { destruct (dispatch_keeps_options P pg (ChangeStory w i) s) as [H _].
    unfold s1. congruence. }
  assert (E1 : s1 = run (handleStoryChange P pg
                           {| target := w;
                              target_value := opt_value picked |}) s0).
  { unfold s1, run.
    now rewrite (dispatch_ChangeStory P pg s w i sel picked Hp Hs Hn). }
  destruct (handleStoryChange_effect P pg s0
              {| target := w; target_value := opt_value picked |})
    as (_ & _ & _ & Hd & _ & Hf).
  rewrite <- E1 in Hd, Hf. simpl target_value in Hd, Hf.
  assert (Hu' : shareUrlInput s0 = Some old)
    by (rewrite <- Hu; unfold s0; now destruct w, s).
  assert (Hb' : shareCopyLinkBtn s0 = Some btn)
    by (rewrite <- Hb; unfold s0; now destruct w, s).
  rewrite Hu' in Hf. rewrite Hb' in Hd. simpl in Hd, Hf.
  apply String.eqb_neq in Hv. rewrite Hv in Hd.
  destruct (shareCopyLinkBtn s1) as [btn1|] eqn:Eb; [|discriminate Hd].
  simpl in Hd. injection Hd as Hd.
  unfold run at 1.
  rewrite (dispatch_Click ShareCopyLinkBtn Resolves s1 btn1 Hp' Eb), Hd.
  unfold on_click, copyShareLink, when_present, bind, gets.
  rewrite Hf. apply copyToClipboard_writes_first.
Qed.

End Clicks.

Lemma click_without_selection_does_nothing_at_home :
  (location_href home_page <> ""
   /\ reachable browser home_page
        (run (dispatch browser home_page ShowModal) home_loaded)
   /\ currentStoryUrl
        (run (dispatch browser home_page ShowModal) home_loaded) = "")
  /\ dispatch browser home_page (Click ShareCopyLinkBtn Resolves)
       (run (dispatch browser home_page ShowModal) home_loaded)
     = (Ok tt, run (dispatch browser home_page ShowModal) home_loaded).
Proof.
  assert (Hh : location_href home_page <> "") by discriminate.
  assert (Hr : reachable browser home_page
                 (run (dispatch browser home_page ShowModal) home_loaded)).
  { apply reachable_step, reachable_init. split; reflexivity. }
  assert (Hc : currentStoryUrl
                 (run (dispatch browser home_page ShowModal) home_loaded)
               = "") by reflexivity.
  assert (Hb : ShareCopyLinkBtn <> ShareCopySiteBtn) by discriminate.
  split; [repeat split; assumption|].
  exact (click_without_selection_does_nothing browser home_page _
           ShareCopyLinkBtn Resolves Hh Hr Hc Hb).
Defined.

Lemma copy_link_after_selection_at_home :
  opt_value (story_option story_a) <> ""
  /\ exists rest,
       effects (run (dispatch browser home_page
                       (Click ShareCopyLinkBtn Resolves))
                  (run (dispatch browser home_page
                          (ChangeStory ShareStorySelect 1)) home_loaded))
       = (effects (run (dispatch browser home_page
                          (ChangeStory ShareStorySelect 1)) home_loaded)
          ++ ClipboardWriteText (share_url browser "https://x/a") :: rest)%list.
Proof.
  assert (Hv : opt_value (story_option story_a) <> "") by discriminate.
  split; [exact Hv|].
  exact (copy_link_after_selection browser home_page home_loaded
           ShareStorySelect 1
           {| options := [ {| opt_value := ""; opt_text := "Select" |};
                           story_option story_a ];
              selectedIndex := Some 0 |}
           (story_option story_a) "" (enabled_button 0)
           eq_refl eq_refl eq_refl Hv eq_refl eq_refl).
Defined.
